(** * FlexTree: the layout adapter of flex_tree/layout.py

    The adapter class [FlexTree] drives a tree of [Node] objects.  Its
    methods are embedded here as computations in a small state-and-exception
    monad over the layout instance, the object allocator and the log of
    calls that leave the adapter.  The [Node] class itself lives in
    flex_tree/node.py; the parts of it that the adapter calls are modelled
    from the design document and marked as such. *)

From Stdlib Require Import ZArith.
From stdpp Require Import base option list strings gmap.

Local Open Scope Z_scope.

(** ** Data model *)

(** A payload is an opaque, identity-comparable window handle. *)
Definition Payload := nat.

(** Identity of a [Node] object: what Python's [is] compares. *)
Definition NodeId := nat.

(** Readings of the clock ([time.time()]). *)
Definition Time := Z.

Bind Scope nat_scope with Payload NodeId.

Inductive Orientation := Horizontal | Vertical.

#[global] Instance Orientation_eq_dec : EqDecision Orientation.
Proof. solve_decision. Defined.

(** [AddMode] is a flag enumeration; [AddMode.HORIZONTAL | AddMode.SPLIT]
    is the union of two flags. *)
Record AddMode := mkAddMode {
  flag_horizontal : bool;
  flag_vertical : bool;
  flag_split : bool
}.

#[global] Instance AddMode_eq_dec : EqDecision AddMode.
Proof. solve_decision. Defined.

Definition HORIZONTAL : AddMode := mkAddMode true false false.
Definition VERTICAL : AddMode := mkAddMode false true false.
Definition SPLIT : AddMode := mkAddMode false false true.

Definition flag_or (a b : AddMode) : AddMode :=
  mkAddMode (flag_horizontal a || flag_horizontal b)
            (flag_vertical a || flag_vertical b)
            (flag_split a || flag_split b).

(** The cached pixel rectangle of a node. *)
Record Rect := mkRect { rect_x : Z; rect_y : Z; rect_width : Z; rect_height : Z }.

(** What every node carries: its identity, its relative weight, the fixed
    extent of each axis ([None] when the axis is flexible) and the cached
    geometry. *)
Record Box := mkBox {
  box_id : NodeId;
  box_weight : Z;
  box_fixed_width : option Z;
  box_fixed_height : option Z;
  box_rect : Rect
}.

#[local] Unset Elimination Schemes.

(** Modelled from the spec: the Node entity of flex_tree/node.py, as the
    two variants of the data model (a leaf holds a payload, a time stamp and
    the minimized flag; a container holds an orientation and its ordered
    children). *)
Inductive Node :=
| Leaf (b : Box) (payload : Payload) (last_accessed : Time) (minimized : bool)
| Container (b : Box) (orientation : Orientation) (children : list Node).

#[local] Set Elimination Schemes.

Definition box (n : Node) : Box :=
  match n with Leaf b _ _ _ => b | Container b _ _ => b end.

Definition node_id (n : Node) : NodeId := box_id (box n).

Definition payload (n : Node) : option Payload :=
  match n with Leaf _ p _ _ => Some p | Container _ _ _ => None end.

Definition last_accessed (n : Node) : Time :=
  match n with Leaf _ _ t _ => t | Container _ _ _ => 0 end.

Definition children (n : Node) : list Node :=
  match n with Leaf _ _ _ _ => [] | Container _ _ cs => cs end.

Definition with_box (f : Box -> Box) (n : Node) : Node :=
  match n with
  | Leaf b p t m => Leaf (f b) p t m
  | Container b o cs => Container (f b) o cs
  end.

(** Python's [a is b] on two node objects. *)
Definition same_node (a b : Node) : bool := Nat.eqb (node_id a) (node_id b).

(** [a is b] where either side may be [None]. *)
Definition is_same (a b : option Node) : bool :=
  match a, b with
  | Some x, Some y => same_node x y
  | None, None => true
  | _, _ => false
  end.

(** ** The Node operations the adapter calls *)

(** Modelled from the spec: Node.all_leafs, the leaves in the depth-first
    pre-order walk, container children visited in their stored order. *)
Fixpoint all_leafs (n : Node) : list Node :=
  match n with
  | Leaf _ _ _ _ => [n]
  | Container _ _ cs => flat_map all_leafs cs
  end.

(** Modelled from the spec: Node.find_payload, a depth-first search that
    returns the leaf whose payload matches, or none.  The key may be Python's
    [None]; no leaf holds it. *)
Fixpoint find_payload (n : Node) (key : option Payload) : option Node :=
  match n with
  | Leaf _ p _ _ => if decide (key = Some p) then Some n else None
  | Container _ _ cs =>
      (fix search (l : list Node) : option Node :=
         match l with
         | [] => None
         | c :: l' =>
             match find_payload c key with
             | Some r => Some r
             | None => search l'
             end
         end) cs
  end.

(** Modelled from the spec: Node.first_leaf and Node.last_leaf, the two
    ends of the leaf order (absent in a tree without leaves). *)
Definition first_leaf (root : Node) : option Node := head (all_leafs root).
Definition last_leaf (root : Node) : option Node := last (all_leafs root).

(** Position of the node object [n] in a list of nodes. *)
Fixpoint index_of (n : Node) (l : list Node) : option nat :=
  match l with
  | [] => None
  | x :: l' => if same_node x n then Some 0%nat else S <$> index_of n l'
  end.

(** Modelled from the spec: Node.next_leaf and Node.prev_leaf step through
    the leaf order and wrap cyclically: the next of the last leaf is the
    first leaf, and the previous of the first leaf is the last one. *)
Definition next_leaf (root n : Node) : Node :=
  let ls := all_leafs root in
  match index_of n ls with
  | Some i => default n (ls !! ((i + 1) mod length ls)%nat)
  | None => n
  end.

Definition prev_leaf (root n : Node) : Node :=
  let ls := all_leafs root in
  match index_of n ls with
  | Some i => default n (ls !! ((i + length ls - 1) mod length ls)%nat)
  | None => n
  end.

(** The node object with identity [id], searched from [n] downwards. *)
Fixpoint find_node (id : NodeId) (n : Node) : option Node :=
  if Nat.eqb (node_id n) id then Some n
  else match n with
       | Leaf _ _ _ _ => None
       | Container _ _ cs =>
           (fix search (l : list Node) : option Node :=
              match l with
              | [] => None
              | c :: l' =>
                  match find_node id c with
                  | Some r => Some r
                  | None => search l'
                  end
              end) cs
       end.

(** The container that holds the node [id] among its children: the
    [parent] back-reference of that node. *)
Fixpoint parent_of (id : NodeId) (n : Node) : option Node :=
  match n with
  | Leaf _ _ _ _ => None
  | Container _ _ cs =>
      if existsb (fun c => Nat.eqb (node_id c) id) cs then Some n
      else (fix search (l : list Node) : option Node :=
              match l with
              | [] => None
              | c :: l' =>
                  match parent_of id c with
                  | Some r => Some r
                  | None => search l'
                  end
              end) cs
  end.

(** In-place mutation of the node object [id]. *)
Fixpoint update_node (id : NodeId) (f : Node -> Node) (n : Node) : Node :=
  if Nat.eqb (node_id n) id then f n
  else match n with
       | Leaf _ _ _ _ => n
       | Container b o cs => Container b o (map (update_node id f) cs)
       end.

(** Modelled from the spec: Node.access stamps [last_accessed] with the
    current time. *)
Definition node_access (now : Time) (n root : Node) : Node :=
  update_node (node_id n)
    (fun x => match x with Leaf b p _ m => Leaf b p now m | _ => x end) root.

(** Modelled from the spec: Node.toggle_minimize_inline flips the
    minimized flag; the node keeps its slot and weight. *)
Definition node_toggle_minimize_inline (n root : Node) : Node :=
  update_node (node_id n)
    (fun x => match x with Leaf b p t m => Leaf b p t (negb m) | _ => x end) root.

(** Modelled from the spec: the width and height of a node are its fixed
    extent when the axis is fixed and the computed (cached) extent
    otherwise; [size] is the alias for the axis of the parent container. *)
Definition node_width (n : Node) : Z :=
  default (rect_width (box_rect (box n))) (box_fixed_width (box n)).

Definition node_height (n : Node) : Z :=
  default (rect_height (box_rect (box n))) (box_fixed_height (box n)).

Definition size_axis (root n : Node) : Orientation :=
  match parent_of (node_id n) root with
  | Some (Container _ o _) => o
  | _ => Horizontal
  end.

Definition node_size (root n : Node) : Z :=
  match size_axis root n with
  | Horizontal => node_width n
  | Vertical => node_height n
  end.

(** Modelled from the spec: setting [width], [height] or [size] switches
    that axis to fixed mode at the given value; [reset_size] reverts both
    axes to flexible mode. *)
Definition fix_width (x : Z) (b : Box) : Box :=
  mkBox (box_id b) (box_weight b) (Some x) (box_fixed_height b) (box_rect b).

Definition fix_height (x : Z) (b : Box) : Box :=
  mkBox (box_id b) (box_weight b) (box_fixed_width b) (Some x) (box_rect b).

Definition flexible_box (b : Box) : Box :=
  mkBox (box_id b) (box_weight b) None None (box_rect b).

(** Modelled from the spec: the weight renormalization among the flexible
    siblings that a change of one sibling's mode or extent triggers.  The
    rule by which node.py rescales the weights is not stated, so it is taken
    as given: a function of the orientation of the parent container and of
    its child sequence. *)
Definition Renormalize : Type := Orientation -> list Node -> list Node.

(** The renormalization applied in the parent container of the node [id]. *)
Fixpoint renormalize_siblings (renormalize : Renormalize) (id : NodeId)
    (n : Node) : Node :=
  match n with
  | Leaf _ _ _ _ => n
  | Container b o cs =>
      if existsb (fun c => Nat.eqb (node_id c) id) cs
      then Container b o (renormalize o cs)
      else Container b o (map (renormalize_siblings renormalize id) cs)
  end.

Definition node_set_width (renormalize : Renormalize) (x : Z) (n root : Node)
  : Node :=
  renormalize_siblings renormalize (node_id n)
    (update_node (node_id n) (with_box (fix_width x)) root).

Definition node_set_height (renormalize : Renormalize) (x : Z) (n root : Node)
  : Node :=
  renormalize_siblings renormalize (node_id n)
    (update_node (node_id n) (with_box (fix_height x)) root).

Definition node_set_size (renormalize : Renormalize) (x : Z) (n root : Node)
  : Node :=
  match size_axis root n with
  | Horizontal => node_set_width renormalize x n root
  | Vertical => node_set_height renormalize x n root
  end.

Definition node_reset_size (renormalize : Renormalize) (n root : Node) : Node :=
  renormalize_siblings renormalize (node_id n)
    (update_node (node_id n) (with_box flexible_box) root).

(** Modelled from the spec: Node.swap_with exchanges the payload and the
    size mode and weight of two leaves in place; the tree shape and both
    node objects stay where they are. *)
Definition take_contents (from : Node) (x : Node) : Node :=
  match x, from with
  | Leaf b _ t m, Leaf b' p' _ _ =>
      Leaf (mkBox (box_id b) (box_weight b') (box_fixed_width b')
                  (box_fixed_height b') (box_rect b)) p' t m
  | _, _ => x
  end.

Definition node_swap_with (a b root : Node) : Node :=
  update_node (node_id b) (take_contents a)
    (update_node (node_id a) (take_contents b) root).

(** *** Removal and the restore memento *)

(** The former anchor of a removed leaf: the identity of its parent
    container, its index there and its weight. *)
Record Memento := mkMemento {
  anchor_parent : NodeId;
  anchor_index : nat;
  anchor_weight : Z
}.

Definition has_child (id : NodeId) (cs : list Node) : bool :=
  existsb (fun c => Nat.eqb (node_id c) id) cs.

(** Detach the node [id]; a container other than the root that is left
    with exactly one child is replaced by that child. *)
Fixpoint detach (id : NodeId) (is_root : bool) (n : Node) : Node :=
  match n with
  | Leaf _ _ _ _ => n
  | Container b o cs =>
      let cs' := flat_map (fun c => if Nat.eqb (node_id c) id then []
                                    else [detach id false c]) cs in
      if has_child id cs && negb is_root
      then match cs' with
           | [only] => only
           | _ => Container b o cs'
           end
      else Container b o cs'
  end.

Definition record_memento (n root : Node) (rs : gmap Payload Memento)
  : gmap Payload Memento :=
  match payload n, parent_of (node_id n) root with
  | Some p, Some parent =>
      <[p := mkMemento (node_id parent)
                       (default 0%nat (index_of n (children parent)))
                       (box_weight (box n))]> rs
  | _, _ => rs
  end.

(** Modelled from the spec: Node.remove detaches the node from its parent,
    records a restore memento keyed by the payload, and collapses a parent
    (other than the root) left with a single child. *)
Definition node_remove (n root : Node) (rs : gmap Payload Memento)
  : Node * gmap Payload Memento :=
  (detach (node_id n) true root, record_memento n root rs).

Definition insert_child (i : nat) (new : Node) (n : Node) : Node :=
  match n with
  | Container b o cs => Container b o (take i cs ++ new :: drop i cs)
  | Leaf _ _ _ _ => n
  end.

Definition set_weight (w : Z) (b : Box) : Box :=
  mkBox (box_id b) w (box_fixed_width b) (box_fixed_height b) (box_rect b).

(** Modelled from the spec: Node.restore reinserts the leaf at the
    position its memento recorded, with the remembered weight, when the
    memento exists and its anchor (parent container identity and index) is
    still valid; otherwise it fails with NotRestorableError, which is the
    [None] here, and leaves the tree as it was. *)
Definition node_restore (new root : Node) (rs : gmap Payload Memento)
  : option (Node * gmap Payload Memento) :=
  match payload new with
  | None => None
  | Some p =>
      match rs !! p with
      | None => None
      | Some m =>
          match find_node (anchor_parent m) root with
          | Some (Container _ _ cs) =>
              if decide (anchor_index m <= length cs)%nat
              then Some (update_node (anchor_parent m)
                           (insert_child (anchor_index m)
                              (with_box (set_weight (anchor_weight m)) new))
                           root,
                         delete p rs)
              else None
          | _ => None
          end
      end
  end.

(** *** Mode-based placement *)

Definition requested_axis (mode : option AddMode) : option Orientation :=
  match mode with
  | None => None
  | Some m =>
      if flag_horizontal m then Some Horizontal
      else if flag_vertical m then Some Vertical
      else None
  end.

Definition wants_split (mode : option AddMode) : bool :=
  match mode with Some m => flag_split m | None => false end.

Definition default_sizing (b : Box) : Box :=
  mkBox (box_id b) 1 None None (box_rect b).

(** The new container that takes the place of [target] and holds [target]
    and [new] with default equal weights. *)
Definition wrap (fresh : NodeId) (a : Orientation) (target new : Node) : Node :=
  Container (mkBox fresh (box_weight (box target)) (box_fixed_width (box target))
                   (box_fixed_height (box target)) (box_rect (box target)))
            a [with_box default_sizing target; with_box default_sizing new].

(** What replaces [target] in the child sequence of a parent container of
    orientation [o]. *)
Definition placement (mode : option AddMode) (fresh : NodeId) (o : Orientation)
    (target new : Node) : list Node :=
  match requested_axis mode with
  | Some a =>
      if wants_split mode || negb (bool_decide (a = o))
      then [wrap fresh a target new]
      else [target; new]
  | None => [target; new]
  end.

Fixpoint place (target : NodeId) (new : Node) (mode : option AddMode)
    (fresh : NodeId) (n : Node) : Node :=
  match n with
  | Leaf _ _ _ _ => n
  | Container b o cs =>
      Container b o
        (flat_map (fun c =>
                     if Nat.eqb (node_id c) target
                     then placement mode fresh o c new
                     else [place target new mode fresh c]) cs)
  end.

(** Modelled from the spec: Node.add_node.  Without SPLIT the new leaf
    joins the parent container of the target, next to the target, when that
    container has the requested orientation (or no axis is requested), and
    otherwise a new container of the requested orientation takes the
    target's place and holds the target and the new leaf; with SPLIT the
    target is always wrapped.  The root has no parent: the new leaf joins the
    root's own children, so that on the empty tree it is the sole child. *)
Definition node_add_node (target new : Node) (mode : option AddMode)
    (fresh : NodeId) (root : Node) : Node :=
  if same_node target root
  then match root with
       | Container b o cs => Container b o (cs ++ [new])
       | Leaf _ _ _ _ => root
       end
  else place (node_id target) new mode fresh root.

(** Modelled from the spec: the constructor [Node(payload, x, y, width,
    height)]: a new object, a leaf when it is given a payload and an empty
    container otherwise. *)
Definition Node_new (id : NodeId) (p : option Payload) (r : Rect) : Node :=
  match p with
  | Some w => Leaf (mkBox id 1 None None r) w 0 false
  | None => Container (mkBox id 1 None None r) Horizontal []
  end.

(** The identities of all node objects of a tree. *)
Fixpoint node_ids (n : Node) : list NodeId :=
  match n with
  | Leaf b _ _ _ => [box_id b]
  | Container b _ cs => box_id b :: flat_map node_ids cs
  end.

(** ** The layout instance *)

(** The configuration options of [FlexTree.defaults]. *)
Record Config := mkConfig {
  name : string;
  border_normal : string;
  border_focus : string;
  border_normal_fixed : string;
  border_focus_fixed : string;
  border_width : Z;
  border_width_single : Z;
  margin : Z;
  margin_single : Z
}.

Definition defaults : Config :=
  mkConfig "FlexTree" "#333333" "#00e891" "#333333" "#00e8dc" 1 0 0 0.

Definition default_dimensions : Rect := mkRect 0 0 1000 1000.

Definition GroupId := nat.

Bind Scope nat_scope with GroupId.

(** The fields of a [FlexTree] object.  The memento map belongs to the root
    node object and is replaced together with it. *)
Record FlexTree := mkFlexTree {
  config : Config;
  group : option GroupId;
  root : Node;
  restorables : gmap Payload Memento;
  focused : option Payload;
  add_mode : option AddMode
}.

(** Calls that are observable from outside the method bodies. *)
Inductive Event :=
| EvPrint (client : Payload)
| EvRestore (new : NodeId)
| EvAddNode (target new : NodeId) (mode : option AddMode)
| EvGroupFocus (p : option Payload).

Inductive Exn :=
| AssertionError
| AttributeError
| ValueError
| NotRestorableError
| RuntimeError.

#[global] Instance Exn_eq_dec : EqDecision Exn.
Proof. solve_decision. Defined.

(** What a method call runs in: the instance it is called on, the object
    allocator, the clock, and the log of calls made so far. *)
Record World := mkWorld {
  self : FlexTree;
  next_id : NodeId;
  clock : Time;
  log : list Event
}.

Inductive Outcome (A : Type) :=
| Return (a : A)
| Raise (e : Exn).

Arguments Return {A} a.
Arguments Raise {A} e.

(** A method body: it runs in a world, mutates it, and returns or raises. *)
Definition M (A : Type) : Type := World -> Outcome A * World.

#[global] Instance M_ret : MRet M := fun A a w => (Return a, w).

#[global] Instance M_bind : MBind M := fun A B f c w =>
  match c w with
  | (Return a, w') => f a w'
  | (Raise e, w') => (Raise e, w')
  end.

Definition raise {A} (e : Exn) : M A := fun w => (Raise e, w).

(** [try: c except e: handler]. *)
Definition try_except {A} (c : M A) (e : Exn) (handler : M A) : M A := fun w =>
  match c w with
  | (Raise e', w') => if decide (e' = e) then handler w' else (Raise e', w')
  | r => r
  end.

Definition get {A} (f : FlexTree -> A) : M A := fun w => (Return (f (self w)), w).

Definition modify (f : FlexTree -> FlexTree) : M unit := fun w =>
  (Return tt, mkWorld (f (self w)) (next_id w) (clock w) (log w)).

Definition emit (e : Event) : M unit := fun w =>
  (Return tt, mkWorld (self w) (next_id w) (clock w) (log w ++ [e])).

Definition alloc : M NodeId := fun w =>
  (Return (next_id w), mkWorld (self w) (S (next_id w)) (clock w) (log w)).

Definition time_time : M Time := fun w => (Return (clock w), w).

Definition set_root (r : Node) (s : FlexTree) : FlexTree :=
  mkFlexTree (config s) (group s) r (restorables s) (focused s) (add_mode s).

Definition set_tree (t : Node * gmap Payload Memento) (s : FlexTree) : FlexTree :=
  mkFlexTree (config s) (group s) (t.1) (t.2) (focused s) (add_mode s).

Definition set_focused (p : option Payload) (s : FlexTree) : FlexTree :=
  mkFlexTree (config s) (group s) (root s) (restorables s) p (add_mode s).

Definition set_add_mode (m : option AddMode) (s : FlexTree) : FlexTree :=
  mkFlexTree (config s) (group s) (root s) (restorables s) (focused s) m.

(** Attribute access or method call on a value that may be [None]. *)
Definition deref (o : option Node) : M Node :=
  match o with
  | Some n => mret n
  | None => raise AttributeError
  end.

(** [Node(payload, ...)]: allocates the object. *)
Definition new_Node (p : option Payload) (r : Rect) : M Node :=
  id ← alloc; mret (Node_new id p r).

(** [self.root.restore(new)]. *)
Definition call_restore (new : Node) : M unit :=
  emit (EvRestore (node_id new));;
  s ← get id;
  match node_restore new (root s) (restorables s) with
  | Some t => modify (set_tree t)
  | None => raise NotRestorableError
  end.

(** [node.add_node(new, mode)]. *)
Definition call_add_node (node new : Node) (mode : option AddMode) : M unit :=
  emit (EvAddNode (node_id node) (node_id new) mode);;
  fresh ← alloc;
  modify (fun s => set_root (node_add_node node new mode fresh (root s)) s).

(** ** The methods of FlexTree *)

(** [__init__]: a new layout is attached to no group. *)
Definition init (cfg : Config) : M FlexTree :=
  r ← new_Node None default_dimensions;
  mret (mkFlexTree cfg None r ∅ None None).

(** [self.group]: the property of libqtile's [Layout], which raises
    RuntimeError on a layout that is attached to no group. *)
Definition get_group : M GroupId := fun w =>
  match group (self w) with
  | Some g => (Return g, w)
  | None => (Raise RuntimeError, w)
  end.

Definition definitely_find_payload (p : Payload) : M Node :=
  r ← get root;
  match find_payload r (Some p) with
  | Some node => mret node
  | None => raise AssertionError
  end.

Definition focused_node : M (option Node) :=
  s ← get id; mret (find_payload (root s) (focused s)).

Definition clone (g : GroupId) : M FlexTree :=
  s ← get id;
  r ← new_Node None default_dimensions;
  mret (mkFlexTree (config s) (Some g) r ∅ None None).

Definition add_client (client : Payload) : M unit :=
  emit (EvPrint client);;
  fn ← focused_node;
  r ← get root;
  let node := match fn with None => r | Some n => n end in
  new ← new_Node (Some client) (mkRect 0 0 0 0);
  try_except (call_restore new) NotRestorableError
    (mode ← get add_mode; call_add_node node new mode);;
  modify (set_add_mode None).

Definition remove (client : Payload) : M unit :=
  n ← definitely_find_payload client;
  modify (fun s => set_tree (node_remove n (root s) (restorables s)) s).

Definition focus (client : Payload) : M unit :=
  modify (set_focused (Some client));;
  n ← definitely_find_payload client;
  now ← time_time;
  modify (fun s => set_root (node_access now n (root s)) s).

Definition focus_first : M (option Payload) :=
  r ← get root; n ← deref (first_leaf r); mret (payload n).

Definition focus_last : M (option Payload) :=
  r ← get root; n ← deref (last_leaf r); mret (payload n).

Definition focus_next (win : Payload) : M (option Payload) :=
  n ← definitely_find_payload win;
  r ← get root;
  let next := next_leaf r n in
  mret (if is_same (Some next) (first_leaf r) then None else payload next).

Definition focus_previous (win : Payload) : M (option Payload) :=
  n ← definitely_find_payload win;
  r ← get root;
  let prev := prev_leaf r n in
  mret (if is_same (Some prev) (last_leaf r) then None else payload prev).

Definition focus_node (node : option Node) : M unit :=
  match node with
  | None => mret tt
  | Some n => get_group;; emit (EvGroupFocus (payload n))
  end.

Definition refocus : M unit :=
  get_group;; p ← get focused; emit (EvGroupFocus p).

Definition next : M unit :=
  n ← focused_node ≫= deref;
  r ← get root;
  focus_node (Some (next_leaf r n)).

Definition previous : M unit :=
  n ← focused_node ≫= deref;
  r ← get root;
  focus_node (Some (prev_leaf r n)).

(** Python's [max(nodes, key=...)]: the first element whose key is maximal;
    [ValueError] on the empty sequence. *)
Fixpoint max_from {A} (key : A -> Z) (best : A) (l : list A) : A :=
  match l with
  | [] => best
  | x :: l' => max_from key (if key best <? key x then x else best) l'
  end.

Definition py_max {A} (key : A -> Z) (l : list A) : M A :=
  match l with
  | [] => raise ValueError
  | x :: l' => mret (max_from key x l')
  end.

(** The list comprehension of [recent]. *)
Definition recent_candidates (r : Node) (fn : option Node) : list Node :=
  List.filter (fun n => negb (is_same (Some n) fn)) (all_leafs r).

Definition recent : M unit :=
  r ← get root;
  fn ← focused_node;
  most_recent ← py_max last_accessed (recent_candidates r fn);
  focus_node (Some most_recent).

Definition toggle_minimize_inline : M unit :=
  n ← focused_node ≫= deref;
  modify (fun s => set_root (node_toggle_minimize_inline n (root s)) s);;
  refocus.

Definition swap (window1 window2 : Payload) : M unit :=
  a ← definitely_find_payload window1;
  b ← definitely_find_payload window2;
  modify (fun s => set_root (node_swap_with a b (root s)) s).

Definition mode_horizontal : M unit :=
  modify (set_add_mode (Some HORIZONTAL)).

Definition mode_vertical : M unit :=
  modify (set_add_mode (Some VERTICAL)).

Definition mode_horizontal_split : M unit :=
  modify (set_add_mode (Some (flag_or HORIZONTAL SPLIT))).

Definition mode_vertical_split : M unit :=
  modify (set_add_mode (Some (flag_or VERTICAL SPLIT))).

Definition size (renormalize : Renormalize) (x : Z) : M unit :=
  n ← focused_node ≫= deref;
  modify (fun s => set_root (node_set_size renormalize x n (root s)) s);;
  refocus.

Definition width (renormalize : Renormalize) (x : Z) : M unit :=
  n ← focused_node ≫= deref;
  modify (fun s => set_root (node_set_width renormalize x n (root s)) s);;
  refocus.

Definition height (renormalize : Renormalize) (x : Z) : M unit :=
  n ← focused_node ≫= deref;
  modify (fun s => set_root (node_set_height renormalize x n (root s)) s);;
  refocus.

Definition reset_size (renormalize : Renormalize) : M unit :=
  n ← focused_node ≫= deref;
  modify (fun s => set_root (node_reset_size renormalize n (root s)) s);;
  refocus.

Definition grow (renormalize : Renormalize) (x : Z) : M unit :=
  n ← focused_node ≫= deref;
  r ← get root;
  modify (fun s => set_root (node_set_size renormalize (node_size r n + x) n
                               (root s)) s);;
  refocus.

Definition grow_width (renormalize : Renormalize) (x : Z) : M unit :=
  n ← focused_node ≫= deref;
  modify (fun s => set_root (node_set_width renormalize (node_width n + x) n
                               (root s)) s);;
  refocus.

Definition grow_height (renormalize : Renormalize) (x : Z) : M unit :=
  n ← focused_node ≫= deref;
  modify (fun s => set_root (node_set_height renormalize (node_height n + x) n
                               (root s)) s);;
  refocus.

(** ** Predicates used in the statements *)

(** The payload is held by some leaf of the tree. *)
Definition present (p : Payload) (r : Node) : Prop :=
  Some p ∈ payload <$> all_leafs r.

#[global] Instance present_dec (p : Payload) (r : Node) : Decision (present p r).
Proof. unfold present, Payload. apply _. Defined.

(** Node identities are pairwise distinct: every object occurs once. *)
Definition distinct_nodes (r : Node) : Prop := NoDup (node_ids r).

(** Every object of the tree was handed out by the allocator. *)
Definition allocated (bound : NodeId) (r : Node) : Prop :=
  Forall (fun i => (i < bound)%nat) (node_ids r).

Definition returns {A} (o : Outcome A * World) : bool :=
  match o.1 with Return _ => true | Raise _ => false end.

Definition raises {A} (e : Exn) (o : Outcome A * World) : bool :=
  match o.1 with Return _ => false | Raise e' => bool_decide (e' = e) end.

(** The events a call appended to the log. *)
Definition emitted (before after : World) : list Event :=
  drop (length (log before)) (log after).

(** A small tree for the examples: a root holding the leaf of window 7 and
    a vertical container with the leaves of windows 8 and 9. *)
Definition leaf (i : NodeId) (p : Payload) (t : Time) : Node :=
  Leaf (mkBox i 1 None None (mkRect 0 0 0 0)) p t false.

Definition container (i : NodeId) (o : Orientation) (cs : list Node) : Node :=
  Container (mkBox i 1 None None default_dimensions) o cs.

Definition empty_root : Node := container 0 Horizontal [].

Definition one_leaf_root : Node := container 0 Horizontal [leaf 1 7 5].

Definition three_leaf_root : Node :=
  container 0 Horizontal
    [leaf 1 7 5; container 2 Vertical [leaf 3 8 9; leaf 4 9 6]].

(** Three leaves side by side under the root. *)
Definition row_root : Node :=
  container 0 Horizontal [leaf 1 7 5; leaf 2 8 9; leaf 3 9 6].

Definition world_of (r : Node) (f : option Payload) (m : option AddMode) : World :=
  mkWorld (mkFlexTree defaults (Some 0%nat) r ∅ f m) 10 100 [].


(** The leaf object that [add_client] creates for [client]. *)
Definition new_leaf (w : World) (client : Payload) : Node :=
  Node_new (next_id w) (Some client) (mkRect 0 0 0 0).

(** The node that [add_client] selects for mode-based placement. *)
Definition add_target (w : World) : Node :=
  match find_payload (root (self w)) (focused (self w)) with
  | None => root (self w)
  | Some n => n
  end.

(** [s] follows [n] in the cyclic leaf order of the tree [r], and [q]
    precedes it. *)
Definition successor (r n s : Node) : Prop :=
  exists i : nat,
    all_leafs r !! i = Some n /\
    all_leafs r !! ((i + 1) mod length (all_leafs r))%nat = Some s.

Definition predecessor (r n q : Node) : Prop :=
  exists i : nat,
    all_leafs r !! i = Some n /\
    all_leafs r !! ((i + length (all_leafs r) - 1) mod length (all_leafs r))%nat
      = Some q.

(** The six commands on the current window that minimize or resize it. *)
Definition minimize_and_resize (renormalize : Renormalize) (x : Z)
  : list (M unit) :=
  [toggle_minimize_inline; size renormalize x; width renormalize x;
   height renormalize x; grow renormalize x; reset_size renormalize].

(** The layout is attached to a group, as every clone made for a group is. *)
Definition attached (w : World) : Prop := is_Some (group (self w)).

(** No renormalization at all, for the examples. *)
Definition keep_weights : Renormalize := fun _ cs => cs.

(** ** The introspection and placement hooks *)

#[local] Unset Elimination Schemes.

(** Modelled from the spec: what Node.tree is made of: a leaf reports
    itself and a container reports the ordered list of what its children
    report. *)
Inductive TreeItem :=
| ItemNode (n : Node)
| ItemList (l : list TreeItem).


#[local] Set Elimination Schemes.

Fixpoint tree_item (n : Node) : TreeItem :=
  match n with
  | Leaf _ _ _ _ => ItemNode n
  | Container _ _ cs => ItemList (map tree_item cs)
  end.

(** Modelled from the spec: Node.tree, the nested shape below a node. *)
Definition tree (n : Node) : list TreeItem := map tree_item (children n).


(** [self.root.tree == [node]]: a one-element list whose element is the
    object [node]; a nested list is never equal to a node or to [None]. *)
Definition tree_is (t : list TreeItem) (node : option Node) : bool :=
  match t with
  | [ItemNode c] => is_same (Some c) node
  | _ => false
  end.

(** The calls that [configure] makes on the client it is given, in order. *)
Inductive ClientCall :=
| Place (x y w h border_width : Z) (border_color : string) (margin : Z)
| WindowConfigureBelow
| Unhide.

Definition set_rect (r : Rect) (b : Box) : Box :=
  mkBox (box_id b) (box_weight b) (box_fixed_width b) (box_fixed_height b) r.

(** [getattr(self, 'border_' + ('focus' | 'normal') + ('' | '_fixed'))]. *)
Definition border_color (cfg : Config) (has_focus flexible : bool) : string :=
  match has_focus, flexible with
  | true, true => border_focus cfg
  | true, false => border_focus_fixed cfg
  | false, true => border_normal cfg
  | false, false => border_normal_fixed cfg
  end.

Section Hooks.

(** The name of a window ([payload.name]). *)
Variable name_of : Payload -> string.

(** The pixel rectangle ([Node.pixel_perfect]) and the sizing mode
    ([Node.flexible]) that node.py computes for a node of a tree; the layout
    solver behind them is not part of this development. *)
Variable pixel_perfect : Node -> Node -> Rect.
Variable flexible : Node -> Node -> bool.




(** [configure(client, screen_rect)]; [has_focus] is the attribute of
    the client that the method reads. *)
Definition configure (client : Payload) (has_focus : bool) (screen_rect : Rect)
  : M (list ClientCall) :=
  modify (fun s => set_root (with_box (set_rect screen_rect) (root s)) s);;
  r ← get root;
  cfg ← get config;
  let node := find_payload r (Some client) in
  let bw := if tree_is (tree r) node
            then border_width_single cfg else border_width cfg in
  let mg := if tree_is (tree r) node
            then margin_single cfg else margin cfg in
  n ← deref node;
  let color := border_color cfg has_focus (flexible r n) in
  let pp := pixel_perfect r n in
  mret [Place (rect_x pp) (rect_y pp)
              (rect_width pp - 2 * bw) (rect_height pp - 2 * bw)
              bw color mg;
        WindowConfigureBelow;
        Unhide].

End Hooks.

(** ** Callers *)

(** The clock moving on between two calls. *)
Definition set_clock (t : Time) (w : World) : World :=
  mkWorld (self w) (next_id w) t (log w).

(** What [Node.access] does to the node it is called on. *)
Definition stamp (now : Time) (x : Node) : Node :=
  match x with Leaf b p _ m => Leaf b p now m | _ => x end.

(** An in-place change of a leaf that keeps its identity and payload and
    leaves containers alone. *)
Definition leaf_change (f : Node -> Node) : Prop :=
  (forall b o cs, f (Container b o cs) = Container b o cs) /\
  (forall b p t m, exists b' t' m',
      f (Leaf b p t m) = Leaf b' p t' m' /\ box_id b' = box_id b).

(** The identities of the container objects of a tree. *)
Fixpoint container_ids (n : Node) : list NodeId :=
  match n with
  | Leaf _ _ _ _ => []
  | Container b _ cs => box_id b :: flat_map container_ids cs
  end.

(** What is left of a list of payloads without the payload [p]. *)
Definition without (p : Payload) (l : list Payload) : list Payload :=
  List.filter (fun q => negb (Nat.eqb q p)) l.

(** An in-place change of a leaf that keeps its identity and leaves
    containers alone; the payload may change. *)
Definition leaf_shape (f : Node -> Node) : Prop :=
  (forall b o cs, f (Container b o cs) = Container b o cs) /\
  (forall b p t m, exists b' p' t' m',
      f (Leaf b p t m) = Leaf b' p' t' m' /\ box_id b' = box_id b).

(** Where a window ends up when the windows [a] and [b] are swapped. *)
Definition swapped (a b q : Payload) : Payload :=
  if decide (q = a) then b else if decide (q = b) then a else q.

(** How a walk over the windows ends: the step answered [None], the step
    raised, or the walk was cut short; each with the windows visited. *)
Inductive Walk :=
| Stopped (visited : list Payload)
| Crashed (visited : list Payload) (e : Exn)
| Unfinished (visited : list Payload).

Definition visit (p : Payload) (r : Walk) : Walk :=
  match r with
  | Stopped l => Stopped (p :: l)
  | Crashed l e => Crashed (p :: l) e
  | Unfinished l => Unfinished (p :: l)
  end.

(** A caller that walks the windows: it starts from a payload and follows
    [step] ([focus_next] or [focus_previous]) until that returns [None]. *)
Fixpoint walk (step : Payload -> M (option Payload)) (fuel : nat)
    (cur : option Payload) (w : World) : Walk :=
  match cur with
  | None => Stopped []
  | Some p =>
      match fuel with
      | O => Unfinished []
      | S k =>
          match step p w with
          | (Return nxt, w') => visit p (walk step k nxt w')
          | (Raise e, _) => Crashed [p] e
          end
      end
  end.

(** The payloads of the leaves, in leaf order. *)
Definition payloads (r : Node) : list Payload := omap payload (all_leafs r).

(** No two leaves hold the same payload. *)
Definition unique_payloads (r : Node) : Prop := NoDup (payload <$> all_leafs r).

(** * Properties *)

(** ** Trees and their leaves *)

(** Structural induction on trees, with the hypothesis on every child. *)
Lemma Node_ind (P : Node -> Prop) :
  (forall b p t m, P (Leaf b p t m)) ->
  (forall b o cs, Forall P cs -> P (Container b o cs)) ->
  forall n, P n.
Proof.
  intros HL HC. fix IH 1. intros [b p t m | b o cs].
  - apply HL.
  - apply HC. induction cs as [| c cs IHcs]; constructor; [apply IH | exact IHcs].
Qed.

Lemma find_app_first {A} (P : A -> bool) (l1 l2 : list A) :
  List.find P (l1 ++ l2) =
  match List.find P l1 with Some x => Some x | None => List.find P l2 end.
Proof.
  induction l1 as [| a l1 IH]; simpl; [reflexivity |].
  destruct (P a); [reflexivity | exact IH].
Qed.

(** The depth-first search finds the first leaf, in leaf order, that holds
    the key. *)
Lemma find_payload_first_leaf (r : Node) (key : option Payload) :
  find_payload r key =
  List.find (fun n => bool_decide (key = payload n)) (all_leafs r).
Proof.
  induction r as [b p t m | b o cs IH] using Node_ind; simpl.
  - destruct (decide (key = Some p)) as [H | H].
    + rewrite bool_decide_eq_true_2 by exact H. reflexivity.
    + rewrite bool_decide_eq_false_2 by exact H. reflexivity.
  - induction IH as [| c cs Hc _ IHcs]; simpl; [reflexivity |].
    rewrite find_app_first, Hc, IHcs. reflexivity.
Qed.

Lemma all_leafs_payload (r n : Node) :
  n ∈ all_leafs r -> is_Some (payload n).
Proof.
  induction r as [b p t m | b o cs IH] using Node_ind; simpl.
  - intros ->%list_elem_of_singleton. simpl. eauto.
  - intros Hin. apply list_elem_of_In, in_flat_map in Hin as (c & Hc & Hn).
    rewrite Forall_forall in IH.
    apply (IH c); apply list_elem_of_In; assumption.
Qed.

Lemma find_payload_Some (r : Node) (key : option Payload) (n : Node) :
  find_payload r key = Some n -> n ∈ all_leafs r /\ payload n = key.
Proof.
  rewrite find_payload_first_leaf. intros H.
  apply find_some in H as [Hin Hp].
  apply bool_decide_eq_true_1 in Hp.
  split; [apply list_elem_of_In; exact Hin | congruence].
Qed.

Lemma find_payload_present (r : Node) (p : Payload) :
  present p r <-> is_Some (find_payload r (Some p)).
Proof.
  unfold present. rewrite list_elem_of_fmap. split.
  - intros (n & Hp & Hin).
    destruct (find_payload r (Some p)) as [x |] eqn:E; [eauto |].
    rewrite find_payload_first_leaf in E.
    apply list_elem_of_In in Hin.
    pose proof (find_none _ _ E n Hin) as Hf. simpl in Hf.
    apply bool_decide_eq_false_1 in Hf. congruence.
  - intros [n Hn]. apply find_payload_Some in Hn as [Hin Hp]. eauto.
Qed.

Lemma find_payload_absent (r : Node) (p : Payload) :
  ~ present p r <-> find_payload r (Some p) = None.
Proof.
  rewrite find_payload_present, <- eq_None_not_Some. reflexivity.
Qed.

(** ** Running method bodies *)

Ltac run_method :=
  unfold mbind, M_bind, mret, M_ret, get, modify, emit, alloc, raise,
    time_time, deref; simpl.

Lemma definitely_find_payload_run (p : Payload) (w : World) :
  definitely_find_payload p w =
  match find_payload (root (self w)) (Some p) with
  | Some n => (Return n, w)
  | None => (Raise AssertionError, w)
  end.
Proof.
  unfold definitely_find_payload. run_method.
  destruct (find_payload (root (self w)) (Some p)); reflexivity.
Qed.

Lemma focused_node_run (w : World) :
  focused_node w = (Return (find_payload (root (self w)) (focused (self w))), w).
Proof. reflexivity. Qed.

Lemma bind_run {A B} (c : M A) (f : A -> M B) (w : World) :
  (c ≫= f) w =
  match c w with
  | (Return a, w') => f a w'
  | (Raise e, w') => (Raise e, w')
  end.
Proof. reflexivity. Qed.

Lemma emitted_app (w w' : World) (es : list Event) :
  log w' = log w ++ es -> emitted w w' = es.
Proof. intros H. unfold emitted. rewrite H. apply drop_app_length. Qed.

(** ** Lookup failures *)

(** C3: an operation that names a payload no leaf holds fails with the
    assertion of [definitely_find_payload] ([remove], [focus], [focus_next],
    [focus_previous], and [swap] with the payload on either side); on a
    payload that a leaf holds the same operations return normally, [swap]
    when both of its payloads are present. *)
Theorem payload_not_found_is_asserted (w : World) (p q : Payload) :
  (~ present p (root (self w)) ->
     raises AssertionError (remove p w) = true /\
     raises AssertionError (focus p w) = true /\
     raises AssertionError (focus_next p w) = true /\
     raises AssertionError (focus_previous p w) = true /\
     raises AssertionError (swap p q w) = true /\
     raises AssertionError (swap q p w) = true) /\
  (present p (root (self w)) ->
     returns (remove p w) = true /\
     returns (focus p w) = true /\
     returns (focus_next p w) = true /\
     returns (focus_previous p w) = true /\
     (present q (root (self w)) ->
        returns (swap p q w) = true /\ returns (swap q p w) = true)).
Proof.
  split.
  - intros Hp%find_payload_absent.
    unfold remove, focus, focus_next, focus_previous, swap.
    run_method. unfold definitely_find_payload. run_method. rewrite !Hp.
    repeat split; try reflexivity.
    destruct (find_payload (root (self w)) (Some q));
      simpl; rewrite ?Hp; reflexivity.
  - intros [n Hn]%find_payload_present.
    unfold remove, focus, focus_next, focus_previous, swap.
    run_method. unfold definitely_find_payload. run_method. rewrite !Hn.
    do 4 (split; [reflexivity |]).
    intros [m Hm]%find_payload_present.
    rewrite Hm. simpl. rewrite ?Hn. split; reflexivity.
Qed.

Lemma payload_not_found_is_asserted_witness :
  raises AssertionError (remove 42 (world_of three_leaf_root None None)) = true /\
  raises AssertionError (swap 8 42 (world_of three_leaf_root None None)) = true /\
  returns (focus_next 8 (world_of three_leaf_root None None)) = true /\
  returns (swap 8 9 (world_of three_leaf_root None None)) = true.
Proof.
  pose proof (payload_not_found_is_asserted
                (world_of three_leaf_root None None) 42 8) as [Habsent _].
  pose proof (payload_not_found_is_asserted
                (world_of three_leaf_root None None) 8 9) as [_ Hpresent].
  assert (H42 : ~ present 42 (root (self (world_of three_leaf_root None None))))
    by (apply (bool_decide_unpack _); vm_compute; exact I).
  assert (H8 : present 8 (root (self (world_of three_leaf_root None None))))
    by (apply (bool_decide_unpack _); vm_compute; exact I).
  assert (H9 : present 9 (root (self (world_of three_leaf_root None None))))
    by (apply (bool_decide_unpack _); vm_compute; exact I).
  destruct (Habsent H42) as (Hr & _ & _ & _ & _ & Hs).
  destruct (Hpresent H8) as (_ & _ & Hn & _ & Hsw).
  destruct (Hsw H9) as [Hsw1 _].
  repeat split; assumption.
Defined.

(** ** Adding a client *)

Lemma add_client_run (client : Payload) (w : World) :
  add_client client w =
  let s := self w in
  let new := new_leaf w client in
  match node_restore new (root s) (restorables s) with
  | Some t =>
      (Return tt,
       mkWorld (set_add_mode None (set_tree t s)) (S (next_id w)) (clock w)
               (log w ++ [EvPrint client; EvRestore (node_id new)]))
  | None =>
      (Return tt,
       mkWorld (set_add_mode None
                  (set_root (node_add_node (add_target w) new (add_mode s)
                               (S (next_id w)) (root s)) s))
               (S (S (next_id w))) (clock w)
               (log w ++ [EvPrint client; EvRestore (node_id new);
                          EvAddNode (node_id (add_target w)) (node_id new)
                                    (add_mode s)]))
  end.
Proof.
  unfold add_client, try_except, call_restore, call_add_node, new_Node,
    focused_node, add_target, new_leaf.
  run_method.
  destruct (node_restore _ _ _) as [t |]; simpl; rewrite <- ?app_assoc; reflexivity.
Qed.

Lemma add_client_outcome (w : World) (client : Payload) :
  let w' := (add_client client w).2 in
  let new := new_leaf w client in
  match node_restore new (root (self w)) (restorables (self w)) with
  | Some t =>
      emitted w w' = [EvPrint client; EvRestore (node_id new)] /\
      root (self w') = t.1 /\ restorables (self w') = t.2
  | None =>
      emitted w w' =
        [EvPrint client; EvRestore (node_id new);
         EvAddNode (node_id (add_target w)) (node_id new) (add_mode (self w))] /\
      root (self w') =
        node_add_node (add_target w) new (add_mode (self w)) (S (next_id w))
          (root (self w)) /\
      restorables (self w') = restorables (self w)
  end.
Proof.
  intros w' new. subst w' new. rewrite add_client_run. simpl.
  destruct (node_restore _ _ _) as [t |]; simpl;
    (split; [| split; reflexivity]); apply emitted_app; reflexivity.
Qed.

(** C1: [add_client] first attempts the restore of the new leaf.  When the
    restore succeeds the tree is the restored one and [add_node] is not
    called; when it fails with NotRestorableError, and only then, the leaf is
    placed by [add_node] on the focused node, or on the root when no node is
    focused, with the current add mode. *)
Theorem add_client_restore_then_fallback (w : World) (client : Payload) :
  let w' := (add_client client w).2 in
  let new := new_leaf w client in
  returns (add_client client w) = true /\
  match node_restore new (root (self w)) (restorables (self w)) with
  | Some t =>
      emitted w w' = [EvPrint client; EvRestore (node_id new)] /\
      root (self w') = t.1 /\ restorables (self w') = t.2
  | None =>
      emitted w w' =
        [EvPrint client; EvRestore (node_id new);
         EvAddNode (node_id (add_target w)) (node_id new) (add_mode (self w))] /\
      root (self w') =
        node_add_node (add_target w) new (add_mode (self w)) (S (next_id w))
          (root (self w)) /\
      restorables (self w') = restorables (self w)
  end.
Proof.
  intros w' new. subst w' new. split.
  - rewrite add_client_run. simpl. destruct (node_restore _ _ _); reflexivity.
  - apply add_client_outcome.
Qed.

(** C5: the add mode chosen by one of the four mode commands is stored on
    the instance, and every [add_client] call returns with the field reset
    to [None], whichever path placed the leaf. *)
Theorem add_mode_consumed_by_add (w : World) (client : Payload) :
  add_mode (self (mode_horizontal w).2) = Some HORIZONTAL /\
  add_mode (self (mode_vertical w).2) = Some VERTICAL /\
  add_mode (self (mode_horizontal_split w).2) = Some (flag_or HORIZONTAL SPLIT) /\
  add_mode (self (mode_vertical_split w).2) = Some (flag_or VERTICAL SPLIT) /\
  returns (add_client client w) = true /\
  add_mode (self (add_client client w).2) = None.
Proof.
  repeat split; try reflexivity;
    rewrite add_client_run; simpl; destruct (node_restore _ _ _); reflexivity.
Qed.

(** C6, as it holds: the mode-based placement of [add_client] (the one
    made when the restore fails) targets the root when no node is focused and
    the focused node otherwise; on the empty tree the new leaf becomes the
    sole child of the root, whichever path placed it. *)
Theorem add_client_target (w : World) (client : Payload) :
  let w' := (add_client client w).2 in
  let new := new_leaf w client in
  let r := root (self w) in
  (node_restore new r (restorables (self w)) = None ->
     (find_payload r (focused (self w)) = None ->
        EvAddNode (node_id r) (node_id new) (add_mode (self w)) ∈ emitted w w' /\
        root (self w') =
          node_add_node r new (add_mode (self w)) (S (next_id w)) r) /\
     (forall n, find_payload r (focused (self w)) = Some n ->
        EvAddNode (node_id n) (node_id new) (add_mode (self w)) ∈ emitted w w' /\
        root (self w') =
          node_add_node n new (add_mode (self w)) (S (next_id w)) r)) /\
  (forall b o, r = Container b o [] ->
     exists n, children (root (self w')) = [n] /\
               payload n = Some client /\ node_id n = next_id w).
Proof.
  intros w' new r. subst w' new r. split.
  - intros Hrestore.
    pose proof (add_client_outcome w client) as Hrun.
    cbv zeta in Hrun. rewrite Hrestore in Hrun. destruct Hrun as (Hlog & Hroot & _).
    unfold add_target in Hlog, Hroot.
    split; [intros Hnone | intros n Hsome].
    + rewrite Hnone in Hlog, Hroot. rewrite Hlog. split; [set_solver | exact Hroot].
    + rewrite Hsome in Hlog, Hroot. rewrite Hlog. split; [set_solver | exact Hroot].
  - intros b o Hempty. rewrite add_client_run. simpl.
    unfold add_target, node_restore, node_add_node, same_node. rewrite Hempty.
    simpl. unfold node_id. simpl. rewrite Nat.eqb_refl.
    destruct (restorables (self w) !! client) as [m |]; simpl.
    + destruct (Nat.eqb (box_id b) (anchor_parent m)) eqn:E; simpl.
      * destruct (decide (anchor_index m <= 0)%nat) as [Hle | Hgt]; simpl.
        -- assert (anchor_index m = 0%nat) as -> by lia.
           simpl. eexists. split; [reflexivity | split; reflexivity].
        -- eexists. split; [reflexivity | split; reflexivity].
      * eexists. split; [reflexivity | split; reflexivity].
    + eexists. split; [reflexivity | split; reflexivity].
Qed.

Lemma add_client_target_witness :
  (exists n,
     children (root (self (add_client 5 (world_of empty_root None None)).2)) = [n] /\
     payload n = Some 5%nat /\ node_id n = 10%nat) /\
  EvAddNode 3 10 None
    ∈ emitted (world_of three_leaf_root (Some 8%nat) None)
              (add_client 5 (world_of three_leaf_root (Some 8%nat) None)).2 /\
  EvAddNode 0 10 None
    ∈ emitted (world_of three_leaf_root None None)
              (add_client 5 (world_of three_leaf_root None None)).2.
Proof.
  split; [| split].
  - destruct (add_client_target (world_of empty_root None None) 5) as [_ Hsole].
    apply (Hsole (mkBox 0 1 None None default_dimensions) Horizontal).
    reflexivity.
  - destruct (add_client_target (world_of three_leaf_root (Some 8%nat) None) 5)
      as [Htarget _].
    assert (Hrestore :
      node_restore (new_leaf (world_of three_leaf_root (Some 8%nat) None) 5)
        (root (self (world_of three_leaf_root (Some 8%nat) None)))
        (restorables (self (world_of three_leaf_root (Some 8%nat) None))) = None)
      by (vm_compute; reflexivity).
    destruct (Htarget Hrestore) as [_ Hfocused].
    apply (Hfocused (leaf 3 8 9)). vm_compute. reflexivity.
  - destruct (add_client_target (world_of three_leaf_root None None) 5)
      as [Htarget _].
    assert (Hrestore :
      node_restore (new_leaf (world_of three_leaf_root None None) 5)
        (root (self (world_of three_leaf_root None None)))
        (restorables (self (world_of three_leaf_root None None))) = None)
      by (vm_compute; reflexivity).
    destruct (Htarget Hrestore) as [Hroot _].
    apply Hroot. vm_compute. reflexivity.
Defined.

(** C6 as stated fails on a tree that holds a window while none is
    focused: the new leaf joins the root next to the existing leaf. *)
Lemma add_client_sole_child_counterexample :
  (focused_node (world_of one_leaf_root None None)).1 = Return None /\
  children (root (self (add_client 5 (world_of one_leaf_root None None)).2))
    = [leaf 1 7 5; Node_new 10 (Some 5%nat) (mkRect 0 0 0 0)] /\
  ~ (exists n,
       children (root (self (add_client 5 (world_of one_leaf_root None None)).2))
         = [n]).
Proof.
  split; [reflexivity |].
  assert (H : children (root (self (add_client 5 (world_of one_leaf_root None None)).2))
              = [leaf 1 7 5; Node_new 10 (Some 5%nat) (mkRect 0 0 0 0)])
    by (vm_compute; reflexivity).
  split; [exact H |].
  intros [n Hn]. rewrite H in Hn. discriminate Hn.
Qed.

(** ** Commands on the current window *)

Lemma on_focused_node_run (f : Node -> Node -> Node) (w : World) :
  (n ← focused_node ≫= deref;
   modify (fun s => set_root (f n (root s)) s);; refocus) w =
  match find_payload (root (self w)) (focused (self w)) with
  | Some n =>
      match group (self w) with
      | Some _ =>
          (Return tt,
           mkWorld (set_root (f n (root (self w))) (self w)) (next_id w) (clock w)
                   (log w ++ [EvGroupFocus (focused (self w))]))
      | None =>
          (Raise RuntimeError,
           mkWorld (set_root (f n (root (self w))) (self w)) (next_id w) (clock w)
                   (log w))
      end
  | None => (Raise AttributeError, w)
  end.
Proof.
  unfold focused_node, refocus, get_group. run_method.
  destruct (find_payload _ _); [| reflexivity].
  simpl. destruct (group (self w)); reflexivity.
Qed.

Lemma grow_run (renormalize : Renormalize) (x : Z) (w : World) :
  grow renormalize x w =
  match find_payload (root (self w)) (focused (self w)) with
  | Some n =>
      match group (self w) with
      | Some _ =>
          (Return tt,
           mkWorld (set_root (node_set_size renormalize
                                (node_size (root (self w)) n + x) n
                                (root (self w))) (self w))
                   (next_id w) (clock w)
                   (log w ++ [EvGroupFocus (focused (self w))]))
      | None =>
          (Raise RuntimeError,
           mkWorld (set_root (node_set_size renormalize
                                (node_size (root (self w)) n + x) n
                                (root (self w))) (self w))
                   (next_id w) (clock w) (log w))
      end
  | None => (Raise AttributeError, w)
  end.
Proof.
  unfold grow, focused_node, refocus, get_group. run_method.
  destruct (find_payload _ _); [| reflexivity].
  simpl. destruct (group (self w)); reflexivity.
Qed.





(** ** Cloning *)

(** C7: [clone] returns an instance whose root is a newly allocated empty
    node, which the original tree does not contain, whose focused window is
    [None] and whose add mode is [None]; the original instance is left as it
    was. *)
Theorem clone_is_fresh (w : World) (g : GroupId) :
  allocated (next_id w) (root (self w)) ->
  exists c,
    (clone g w).1 = Return c /\
    self (clone g w).2 = self w /\
    root c = Node_new (next_id w) None default_dimensions /\
    children (root c) = [] /\
    (forall i, i ∈ node_ids (root c) -> i ∉ node_ids (root (self w))) /\
    focused c = None /\
    add_mode c = None.
Proof.
  intros Halloc. eexists. split; [reflexivity |]. simpl.
  repeat split.
  intros i ->%list_elem_of_singleton Hin.
  unfold allocated in Halloc. rewrite Forall_forall in Halloc.
  specialize (Halloc _ Hin). lia.
Qed.

Lemma clone_is_fresh_witness :
  exists c,
    (clone 1 (world_of three_leaf_root (Some 8%nat) (Some VERTICAL))).1 = Return c /\
    self (clone 1 (world_of three_leaf_root (Some 8%nat) (Some VERTICAL))).2
      = self (world_of three_leaf_root (Some 8%nat) (Some VERTICAL)) /\
    root c = Node_new 10 None default_dimensions /\
    children (root c) = [] /\
    (forall i, i ∈ node_ids (root c) -> i ∉ node_ids three_leaf_root) /\
    focused c = None /\
    add_mode c = None.
Proof.
  apply (clone_is_fresh (world_of three_leaf_root (Some 8%nat) (Some VERTICAL)) 1).
  unfold allocated. simpl. repeat constructor; lia.
Defined.

(** ** Leaf order *)

Lemma leaf_ids_sublist (r : Node) :
  (node_id <$> all_leafs r) `sublist_of` node_ids r.
Proof.
  induction r as [b p t m | b o cs IH] using Node_ind; simpl.
  - reflexivity.
  - apply sublist_cons.
    induction IH as [| c cs Hc _ IHcs]; simpl; [constructor |].
    rewrite fmap_app. apply sublist_app; assumption.
Qed.

Lemma distinct_leaf_ids (r : Node) :
  distinct_nodes r -> NoDup (node_id <$> all_leafs r).
Proof.
  intros H. exact (sublist_NoDup _ _ H (leaf_ids_sublist r)).
Qed.

Lemma same_node_eq (l : list Node) (a b : Node) :
  NoDup (node_id <$> l) -> a ∈ l -> b ∈ l -> same_node a b = true -> a = b.
Proof.
  intros Hnd [i Hi]%list_elem_of_lookup [j Hj]%list_elem_of_lookup Hsame.
  apply Nat.eqb_eq in Hsame.
  assert (i = j) as ->.
  { apply (NoDup_lookup _ i j (node_id a) Hnd).
    - rewrite list_lookup_fmap, Hi. reflexivity.
    - rewrite list_lookup_fmap, Hj, Hsame. reflexivity. }
  congruence.
Qed.

Lemma index_of_lookup (l : list Node) (i : nat) (n : Node) :
  NoDup (node_id <$> l) -> l !! i = Some n -> index_of n l = Some i.
Proof.
  revert i. induction l as [| x l IH]; intros i Hnd Hi; [discriminate |].
  rewrite fmap_cons in Hnd. apply NoDup_cons in Hnd as [Hx Hnd].
  destruct i as [| i]; simpl in *.
  - injection Hi as ->. unfold same_node. rewrite Nat.eqb_refl. reflexivity.
  - destruct (same_node x n) eqn:E.
    + exfalso. apply Hx. apply Nat.eqb_eq in E. rewrite E.
      apply list_elem_of_fmap. exists n. split; [reflexivity |].
      eapply list_elem_of_lookup_2, Hi.
    + rewrite (IH i Hnd Hi). reflexivity.
Qed.

Lemma next_leaf_successor (r n s : Node) :
  distinct_nodes r -> successor r n s -> next_leaf r n = s.
Proof.
  intros Hd (i & Hi & Hs). unfold next_leaf.
  rewrite (index_of_lookup _ i n (distinct_leaf_ids r Hd) Hi), Hs. reflexivity.
Qed.

Lemma prev_leaf_predecessor (r n q : Node) :
  distinct_nodes r -> predecessor r n q -> prev_leaf r n = q.
Proof.
  intros Hd (i & Hi & Hq). unfold prev_leaf.
  rewrite (index_of_lookup _ i n (distinct_leaf_ids r Hd) Hi), Hq. reflexivity.
Qed.

(** With distinct node objects, [x is end] holds exactly when [x] is that
    end of the leaf order. *)
Lemma is_same_end (r x : Node) (e : option Node) :
  distinct_nodes r -> x ∈ all_leafs r ->
  (forall y, e = Some y -> y ∈ all_leafs r) ->
  is_same (Some x) e = true <-> e = Some x.
Proof.
  intros Hd Hx He. split.
  - destruct e as [y |]; simpl; [| discriminate].
    intros Hsame. f_equal. symmetry.
    apply (same_node_eq (all_leafs r)); auto using distinct_leaf_ids.
  - intros ->. simpl. unfold same_node. apply Nat.eqb_refl.
Qed.

Lemma successor_in_leaves (r n s : Node) : successor r n s -> s ∈ all_leafs r.
Proof. intros (i & _ & Hs). eapply list_elem_of_lookup_2, Hs. Qed.

Lemma predecessor_in_leaves (r n q : Node) : predecessor r n q -> q ∈ all_leafs r.
Proof. intros (i & _ & Hq). eapply list_elem_of_lookup_2, Hq. Qed.

Lemma focus_next_run (w : World) (p : Payload) (n : Node) :
  find_payload (root (self w)) (Some p) = Some n ->
  focus_next p w =
  (Return (if is_same (Some (next_leaf (root (self w)) n)) (first_leaf (root (self w)))
           then None else payload (next_leaf (root (self w)) n)), w).
Proof.
  intros Hn. unfold focus_next. rewrite bind_run, definitely_find_payload_run, Hn.
  reflexivity.
Qed.

Lemma focus_previous_run (w : World) (p : Payload) (n : Node) :
  find_payload (root (self w)) (Some p) = Some n ->
  focus_previous p w =
  (Return (if is_same (Some (prev_leaf (root (self w)) n)) (last_leaf (root (self w)))
           then None else payload (prev_leaf (root (self w)) n)), w).
Proof.
  intros Hn. unfold focus_previous.
  rewrite bind_run, definitely_find_payload_run, Hn. reflexivity.
Qed.

(** C4: for a payload [p] held by the leaf [n], with [s] the successor and
    [q] the predecessor of [n] in the cyclic leaf order: [focus_next p]
    returns [None] when [s] is the first leaf of the tree and the payload of
    [s] otherwise, and [focus_previous p] returns [None] when [q] is the last
    leaf and the payload of [q] otherwise.  The payload of a leaf is never
    [None], so [None] is returned exactly on the wrap.  Node objects are
    taken to be distinct, as Python objects are. *)
Theorem focus_next_previous_wrap (w : World) (p : Payload) (n s q : Node) :
  distinct_nodes (root (self w)) ->
  find_payload (root (self w)) (Some p) = Some n ->
  successor (root (self w)) n s ->
  predecessor (root (self w)) n q ->
  (first_leaf (root (self w)) = Some s -> focus_next p w = (Return None, w)) /\
  (first_leaf (root (self w)) <> Some s ->
     exists ps, payload s = Some ps /\ focus_next p w = (Return (Some ps), w)) /\
  (last_leaf (root (self w)) = Some q -> focus_previous p w = (Return None, w)) /\
  (last_leaf (root (self w)) <> Some q ->
     exists pq, payload q = Some pq /\ focus_previous p w = (Return (Some pq), w)).
Proof.
  intros Hd Hn Hs Hq.
  pose proof (successor_in_leaves _ _ _ Hs) as Hsin.
  pose proof (predecessor_in_leaves _ _ _ Hq) as Hqin.
  rewrite (focus_next_run w p n Hn), (focus_previous_run w p n Hn).
  rewrite (next_leaf_successor _ _ _ Hd Hs), (prev_leaf_predecessor _ _ _ Hd Hq).
  pose proof (is_same_end _ s (first_leaf (root (self w))) Hd Hsin
                (head_Some_elem_of _)) as Hfirst.
  pose proof (is_same_end _ q (last_leaf (root (self w))) Hd Hqin
                (last_Some_elem_of _)) as Hlast.
  repeat split.
  - intros H. apply Hfirst in H. rewrite H. reflexivity.
  - intros H. destruct (all_leafs_payload _ _ Hsin) as [ps Hps].
    exists ps. split; [exact Hps |].
    destruct (is_same (Some s) (first_leaf (root (self w)))) eqn:E.
    + exfalso. apply H, Hfirst. reflexivity.
    + rewrite Hps. reflexivity.
  - intros H. apply Hlast in H. rewrite H. reflexivity.
  - intros H. destruct (all_leafs_payload _ _ Hqin) as [pq Hpq].
    exists pq. split; [exact Hpq |].
    destruct (is_same (Some q) (last_leaf (root (self w)))) eqn:E.
    + exfalso. apply H, Hlast. reflexivity.
    + rewrite Hpq. reflexivity.
Qed.

Lemma focus_next_previous_wrap_witness :
  focus_next 9 (world_of three_leaf_root None None)
    = (Return None, world_of three_leaf_root None None) /\
  focus_previous 9 (world_of three_leaf_root None None)
    = (Return (Some 8%nat), world_of three_leaf_root None None) /\
  focus_next 7 (world_of three_leaf_root None None)
    = (Return (Some 8%nat), world_of three_leaf_root None None) /\
  focus_previous 7 (world_of three_leaf_root None None)
    = (Return None, world_of three_leaf_root None None).
Proof.
  assert (Hd : distinct_nodes (root (self (world_of three_leaf_root None None))))
    by (apply (bool_decide_unpack _); vm_compute; exact I).
  destruct (focus_next_previous_wrap (world_of three_leaf_root None None) 9
              (leaf 4 9 6) (leaf 1 7 5) (leaf 3 8 9)) as (Hn9 & _ & _ & Hp9).
  { exact Hd. }
  { reflexivity. }
  { exists 2%nat. split; reflexivity. }
  { exists 2%nat. split; reflexivity. }
  destruct (focus_next_previous_wrap (world_of three_leaf_root None None) 7
              (leaf 1 7 5) (leaf 3 8 9) (leaf 4 9 6)) as (_ & Hn7 & Hp7 & _).
  { exact Hd. }
  { reflexivity. }
  { exists 0%nat. split; reflexivity. }
  { exists 0%nat. split; reflexivity. }
  split; [apply Hn9; reflexivity |].
  split.
  { destruct Hp9 as (pq & Hpq & Hrun); [discriminate |].
    injection Hpq as <-. exact Hrun. }
  split.
  { destruct Hn7 as (ps & Hps & Hrun); [discriminate |].
    injection Hps as <-. exact Hrun. }
  apply Hp7. reflexivity.
Defined.

(** C10: in a tree with exactly one leaf, [focus_next] and
    [focus_previous] on the payload of that leaf return [None]: the leaf is
    its own cyclic successor and predecessor, and it is both the first and
    the last leaf. *)
Theorem single_leaf_focus_wraps (w : World) (p : Payload) (n : Node) :
  all_leafs (root (self w)) = [n] ->
  payload n = Some p ->
  focus_next p w = (Return None, w) /\ focus_previous p w = (Return None, w).
Proof.
  intros Hleafs Hp.
  assert (Hn : find_payload (root (self w)) (Some p) = Some n).
  { rewrite find_payload_first_leaf, Hleafs. simpl.
    rewrite bool_decide_eq_true_2 by congruence. reflexivity. }
  rewrite (focus_next_run w p n Hn), (focus_previous_run w p n Hn).
  unfold next_leaf, prev_leaf, first_leaf, last_leaf. rewrite Hleafs. simpl.
  unfold same_node. rewrite Nat.eqb_refl. simpl. rewrite Nat.eqb_refl.
  split; reflexivity.
Qed.

Lemma single_leaf_focus_wraps_witness :
  focus_next 7 (world_of one_leaf_root None None)
    = (Return None, world_of one_leaf_root None None) /\
  focus_previous 7 (world_of one_leaf_root None None)
    = (Return None, world_of one_leaf_root None None).
Proof.
  apply (single_leaf_focus_wraps (world_of one_leaf_root None None) 7 (leaf 1 7 5));
    reflexivity.
Defined.

(** ** Recency *)

Lemma max_from_spec {A} (key : A -> Z) (l : list A) (best : A) :
  max_from key best l ∈ best :: l /\
  forall x, x ∈ best :: l -> key x <= key (max_from key best l).
Proof.
  revert best. induction l as [| a l IH]; intros best; simpl.
  - split; [left |]. intros x ->%list_elem_of_singleton. lia.
  - destruct (IH (if key best <? key a then a else best)) as [Hin Hmax].
    split.
    + apply elem_of_cons in Hin as [-> | Hin].
      * destruct (key best <? key a); [right; left | left].
      * right. right. exact Hin.
    + intros x Hx.
      assert (Hstep : key best <= key (if key best <? key a then a else best) /\
                      key a <= key (if key best <? key a then a else best))
        by (destruct (Z.ltb_spec (key best) (key a)); lia).
      destruct Hstep as [Hb Ha].
      pose proof (Hmax _ (list_elem_of_here _ _)) as Htop.
      apply elem_of_cons in Hx as [-> | Hx]; [lia |].
      apply elem_of_cons in Hx as [-> | Hx]; [lia |].
      apply Hmax. right. exact Hx.
Qed.

Lemma recent_run (w : World) :
  recent w =
  match recent_candidates (root (self w))
          (find_payload (root (self w)) (focused (self w))) with
  | [] => (Raise ValueError, w)
  | x :: l =>
      match group (self w) with
      | Some _ =>
          (Return tt,
           mkWorld (self w) (next_id w) (clock w)
                   (log w ++ [EvGroupFocus (payload (max_from last_accessed x l))]))
      | None => (Raise RuntimeError, w)
      end
  end.
Proof.
  unfold recent, focused_node, py_max, focus_node, get_group. run_method.
  destruct (recent_candidates _ _); [reflexivity |].
  simpl. destruct (group (self w)); reflexivity.
Qed.

(** The comprehension of [recent] holds the leaves of the tree that are
    not the focused node. *)
Lemma recent_candidates_spec (r : Node) (fn : option Node) (m : Node) :
  m ∈ recent_candidates r fn <-> m ∈ all_leafs r /\ is_same (Some m) fn = false.
Proof.
  unfold recent_candidates.
  rewrite list_elem_of_In, filter_In, <- list_elem_of_In, negb_true_iff.
  reflexivity.
Qed.

(** C8: on a layout attached to a group whose tree has a leaf other than
    the focused one, [recent] asks the group to focus a leaf of the tree that
    is not the focused node and whose [last_accessed] stamp is maximal among
    all leaves other than the focused node. *)
Theorem recent_focuses_most_recent_other (w : World) :
  let r := root (self w) in
  let fn := find_payload r (focused (self w)) in
  attached w ->
  (exists m, m ∈ all_leafs r /\ is_same (Some m) fn = false) ->
  exists n,
    recent w = (Return tt,
                mkWorld (self w) (next_id w) (clock w)
                        (log w ++ [EvGroupFocus (payload n)])) /\
    n ∈ all_leafs r /\
    is_same (Some n) fn = false /\
    fn <> Some n /\
    (forall m, m ∈ all_leafs r -> is_same (Some m) fn = false ->
               last_accessed m <= last_accessed n).
Proof.
  intros r fn [g Hg] (m0 & Hm0 & Hother0). rewrite recent_run, Hg. fold r fn.
  pose proof (proj2 (recent_candidates_spec r fn m0) (conj Hm0 Hother0)) as Hcand.
  destruct (recent_candidates r fn) as [| x l] eqn:E.
  { apply elem_of_nil in Hcand. contradiction. }
  destruct (max_from_spec last_accessed l x) as [Hin Hmax].
  exists (max_from last_accessed x l).
  rewrite <- E in Hin, Hmax.
  apply recent_candidates_spec in Hin as [Hleaf Hother].
  split; [reflexivity |].
  split; [exact Hleaf |].
  split; [exact Hother |].
  split.
  - intros Heq. rewrite Heq in Hother. simpl in Hother.
    unfold same_node in Hother. rewrite Nat.eqb_refl in Hother. discriminate.
  - intros m Hm Hnot. apply Hmax. apply recent_candidates_spec. split; assumption.
Qed.

Lemma recent_focuses_most_recent_other_witness :
  exists n,
    recent (world_of three_leaf_root (Some 8%nat) None)
      = (Return tt,
         mkWorld (self (world_of three_leaf_root (Some 8%nat) None)) 10 100
                 [EvGroupFocus (payload n)]) /\
    n ∈ all_leafs three_leaf_root /\
    is_same (Some n) (Some (leaf 3 8 9)) = false /\
    Some (leaf 3 8 9) <> Some n /\
    (forall m, m ∈ all_leafs three_leaf_root ->
               is_same (Some m) (Some (leaf 3 8 9)) = false ->
               last_accessed m <= last_accessed n).
Proof.
  apply (recent_focuses_most_recent_other
           (world_of three_leaf_root (Some 8%nat) None)).
  - vm_compute. eauto.
  - exists (leaf 1 7 5). split; [left | reflexivity].
Defined.

(** C9: when the tree has no leaf, or when its only leaf is the focused
    one, [recent] raises: no candidate is left and [max] of the empty
    sequence is a ValueError. *)
Theorem recent_fails_without_other_leaf (w : World) :
  all_leafs (root (self w)) = [] \/
  (exists n, all_leafs (root (self w)) = [n] /\ focused (self w) = payload n) ->
  recent w = (Raise ValueError, w).
Proof.
  intros H. rewrite recent_run. unfold recent_candidates.
  destruct H as [Hnone | (n & Hone & Hfocus)].
  - rewrite Hnone. reflexivity.
  - rewrite find_payload_first_leaf, Hone, Hfocus. simpl.
    rewrite bool_decide_eq_true_2 by reflexivity. simpl.
    unfold same_node. rewrite Nat.eqb_refl. reflexivity.
Qed.

Lemma recent_fails_without_other_leaf_witness :
  recent (world_of one_leaf_root (Some 7%nat) None)
    = (Raise ValueError, world_of one_leaf_root (Some 7%nat) None) /\
  recent (world_of empty_root None None)
    = (Raise ValueError, world_of empty_root None None).
Proof.
  split.
  - apply (recent_fails_without_other_leaf (world_of one_leaf_root (Some 7%nat) None)).
    right. exists (leaf 1 7 5). split; reflexivity.
  - apply (recent_fails_without_other_leaf (world_of empty_root None None)).
    left. reflexivity.
Defined.

(** ** The model on the scenarios of the design document *)

(** Removing B from [A, [B, C]] collapses the inner container. *)
Example remove_collapses :
  children (root (self (remove 8 (world_of three_leaf_root None None)).2))
    = [leaf 1 7 5; leaf 4 9 6].
Proof. vm_compute. reflexivity. Qed.

(** A removed window that is added again takes its former slot, and the
    restore path is the only one taken. *)
Example restore_round_trip :
  let w := (remove 8 (world_of row_root None (Some VERTICAL))).2 in
  payload <$> children (root (self w)) = [Some 7%nat; Some 9%nat] /\
  payload <$> children (root (self (add_client 8 w).2))
    = [Some 7%nat; Some 8%nat; Some 9%nat] /\
  emitted w (add_client 8 w).2 = [EvPrint 8; EvRestore 10].
Proof. vm_compute. repeat split; reflexivity. Qed.

(** Once the anchor container has collapsed the memento is not restorable
    and the leaf is placed by the add mode, next to the focused leaf. *)
Example restore_falls_back :
  let w := (remove 8 (world_of three_leaf_root (Some 9%nat) None)).2 in
  payload <$> children (root (self (add_client 8 w).2))
    = [Some 7%nat; Some 9%nat; Some 8%nat] /\
  emitted w (add_client 8 w).2 = [EvPrint 8; EvRestore 10; EvAddNode 4 10 None].
Proof. vm_compute. repeat split; reflexivity. Qed.

(** A split add wraps the focused leaf and the new leaf in a new
    container. *)
Example split_add :
  let w := world_of one_leaf_root (Some 7%nat) (Some (flag_or HORIZONTAL SPLIT)) in
  (fun n => payload <$> all_leafs n) <$> children (root (self (add_client 8 w).2))
    = [[Some 7%nat; Some 8%nat]] /\
  add_mode (self (add_client 8 w).2) = None.
Proof. vm_compute. repeat split; reflexivity. Qed.

(** * Further properties of the adapter *)

(** ** Walking the windows *)

Lemma find_unique {A B} `{EqDecision B} (f : A -> B) (l : list A) (i : nat) (n : A) :
  NoDup (f <$> l) -> l !! i = Some n ->
  List.find (fun x => bool_decide (f n = f x)) l = Some n.
Proof.
  revert i. induction l as [| x l IH]; intros i Hnd Hi; [discriminate |].
  rewrite fmap_cons in Hnd. apply NoDup_cons in Hnd as [Hx Hnd].
  destruct i as [| i]; simpl in *.
  - injection Hi as ->. rewrite bool_decide_eq_true_2 by reflexivity. reflexivity.
  - rewrite bool_decide_eq_false_2; [exact (IH i Hnd Hi) |].
    intros Heq. apply Hx. rewrite <- Heq.
    apply list_elem_of_fmap_2. eapply list_elem_of_lookup_2, Hi.
Qed.

Lemma find_payload_at (r : Node) (i : nat) (n : Node) (p : Payload) :
  unique_payloads r -> all_leafs r !! i = Some n -> payload n = Some p ->
  find_payload r (Some p) = Some n.
Proof.
  intros Hu Hi Hp. rewrite find_payload_first_leaf, <- Hp.
  exact (find_unique payload _ i n Hu Hi).
Qed.

Lemma distinct_leaves (r : Node) : distinct_nodes r -> NoDup (all_leafs r).
Proof. intros H. exact (NoDup_fmap_1 node_id _ (distinct_leaf_ids r H)). Qed.

Lemma not_same_at (r : Node) (i j : nat) (a b : Node) :
  distinct_nodes r -> all_leafs r !! i = Some a -> all_leafs r !! j = Some b ->
  i <> j -> same_node a b = false.
Proof.
  intros Hd Ha Hb Hne. destruct (same_node a b) eqn:E; [| reflexivity].
  exfalso. apply Hne.
  assert (a = b) as ->.
  { apply (same_node_eq (all_leafs r)); eauto using distinct_leaf_ids,
      list_elem_of_lookup_2. }
  exact (NoDup_lookup _ i j b (distinct_leaves r Hd) Ha Hb).
Qed.

Lemma same_node_refl (a : Node) : same_node a a = true.
Proof. apply Nat.eqb_refl. Qed.

(** [focus_next] on the payload of the leaf at position [i] gives the
    payload of the leaf at position [i + 1], and [None] at the end. *)
Lemma focus_next_at (w : World) (i : nat) (n : Node) (p : Payload) :
  distinct_nodes (root (self w)) -> unique_payloads (root (self w)) ->
  all_leafs (root (self w)) !! i = Some n -> payload n = Some p ->
  focus_next p w = (Return (all_leafs (root (self w)) !! S i ≫= payload), w).
Proof.
  intros Hd Hu Hi Hp.
  rewrite (focus_next_run w p n (find_payload_at _ i n p Hu Hi Hp)).
  unfold next_leaf, first_leaf.
  rewrite (index_of_lookup _ i n (distinct_leaf_ids _ Hd) Hi).
  set (ls := all_leafs (root (self w))) in *.
  pose proof (lookup_lt_Some _ _ _ Hi) as Hlt.
  rewrite Nat.add_1_r, head_lookup.
  destruct (decide (S i < length ls)%nat) as [Hin | Hout].
  - rewrite Nat.mod_small by exact Hin.
    destruct (lookup_lt_is_Some_2 ls (S i) Hin) as [s Hs].
    destruct (lookup_lt_is_Some_2 ls 0%nat ltac:(lia)) as [f Hf].
    rewrite Hs, Hf. simpl.
    rewrite (not_same_at _ (S i) 0%nat s f Hd Hs Hf) by lia. reflexivity.
  - assert (S i = length ls) as Hlen by lia.
    rewrite Hlen, Nat.Div0.mod_same.
    destruct (lookup_lt_is_Some_2 ls 0%nat ltac:(lia)) as [f Hf].
    rewrite Hf. simpl. rewrite same_node_refl.
    rewrite (proj2 (lookup_ge_None ls (length ls))) by lia. reflexivity.
Qed.

(** [focus_previous] on the payload of the leaf at position [i] gives the
    payload of the leaf before it, and [None] at the start. *)
Lemma focus_previous_at (w : World) (i : nat) (n : Node) (p : Payload) :
  distinct_nodes (root (self w)) -> unique_payloads (root (self w)) ->
  all_leafs (root (self w)) !! i = Some n -> payload n = Some p ->
  focus_previous p w =
  (Return (match i with
           | O => None
           | S j => all_leafs (root (self w)) !! j ≫= payload
           end), w).
Proof.
  intros Hd Hu Hi Hp.
  rewrite (focus_previous_run w p n (find_payload_at _ i n p Hu Hi Hp)).
  unfold prev_leaf, last_leaf.
  rewrite (index_of_lookup _ i n (distinct_leaf_ids _ Hd) Hi).
  set (ls := all_leafs (root (self w))) in *.
  pose proof (lookup_lt_Some _ _ _ Hi) as Hlt.
  rewrite last_lookup.
  destruct (lookup_lt_is_Some_2 ls (pred (length ls)) ltac:(lia)) as [e He].
  destruct i as [| j].
  - replace (0 + length ls - 1)%nat with (pred (length ls)) by lia.
    rewrite Nat.mod_small by lia.
    rewrite He. simpl. rewrite same_node_refl. reflexivity.
  - replace (S j + length ls - 1)%nat with (j + 1 * length ls)%nat by lia.
    rewrite Nat.Div0.mod_add, Nat.mod_small by lia.
    destruct (lookup_lt_is_Some_2 ls j ltac:(lia)) as [q Hq].
    rewrite Hq, He. simpl.
    rewrite (not_same_at _ j (pred (length ls)) q e Hd Hq He) by lia.
    reflexivity.
Qed.

Lemma walk_None (step : Payload -> M (option Payload)) (fuel : nat) (w : World) :
  walk step fuel None w = Stopped [].
Proof. destruct fuel; reflexivity. Qed.

Lemma walk_next_from (w : World) (fuel i : nat) :
  distinct_nodes (root (self w)) -> unique_payloads (root (self w)) ->
  (length (all_leafs (root (self w))) - i <= fuel)%nat ->
  walk focus_next fuel (all_leafs (root (self w)) !! i ≫= payload) w
  = Stopped (omap payload (drop i (all_leafs (root (self w))))).
Proof.
  intros Hd Hu. revert i. induction fuel as [| k IH]; intros i Hfuel.
  - rewrite drop_ge by lia.
    rewrite (proj2 (lookup_ge_None _ i)) by lia. reflexivity.
  - destruct (all_leafs (root (self w)) !! i) as [n |] eqn:Hi.
    + destruct (all_leafs_payload _ n (list_elem_of_lookup_2 _ _ _ Hi)) as [p Hp].
      rewrite (drop_S _ _ _ Hi). simpl. rewrite Hp. simpl.
      rewrite (focus_next_at w i n p Hd Hu Hi Hp).
      rewrite IH by lia. reflexivity.
    + apply lookup_ge_None in Hi. rewrite drop_ge by exact Hi. reflexivity.
Qed.

Lemma walk_previous_from (w : World) (i fuel : nat) (n : Node) :
  distinct_nodes (root (self w)) -> unique_payloads (root (self w)) ->
  all_leafs (root (self w)) !! i = Some n -> (i < fuel)%nat ->
  walk focus_previous fuel (payload n) w
  = Stopped (omap payload (reverse (take (S i) (all_leafs (root (self w)))))).
Proof.
  intros Hd Hu. revert fuel n.
  induction i as [| j IH]; intros fuel n Hi Hfuel;
    (destruct fuel as [| k]; [lia |]);
    destruct (all_leafs_payload _ n (list_elem_of_lookup_2 _ _ _ Hi)) as [p Hp];
    rewrite (take_S_r _ _ _ Hi), reverse_snoc; simpl; rewrite Hp; simpl.
  - rewrite (focus_previous_at w 0 n p Hd Hu Hi Hp).
    rewrite walk_None. reflexivity.
  - rewrite (focus_previous_at w (S j) n p Hd Hu Hi Hp).
    destruct (lookup_lt_is_Some_2 (all_leafs (root (self w))) j) as [q Hq].
    { apply lookup_lt_Some in Hi. lia. }
    rewrite Hq. simpl. rewrite (IH k q Hq) by lia. reflexivity.
Qed.

Lemma payloads_fmap (r : Node) : Some <$> payloads r = payload <$> all_leafs r.
Proof.
  unfold payloads.
  assert (H : Forall (fun n => is_Some (payload n)) (all_leafs r))
    by (apply Forall_forall; intros n Hn; apply (all_leafs_payload r); exact Hn).
  induction H as [| n l [p Hp] _ IH]; simpl; [reflexivity |].
  rewrite Hp. simpl. f_equal. exact IH.
Qed.

(** X1: a caller that starts at [focus_first] and follows [focus_next]
    visits every window exactly once, in leaf order; every call on the way
    returns, and the walk ends because [focus_next] answers [None] after the
    last window. *)
Theorem walk_forward_visits_all (w : World) (fuel : nat) :
  distinct_nodes (root (self w)) ->
  unique_payloads (root (self w)) ->
  all_leafs (root (self w)) <> [] ->
  (length (all_leafs (root (self w))) <= fuel)%nat ->
  exists first,
    focus_first w = (Return first, w) /\
    walk focus_next fuel first w = Stopped (payloads (root (self w))).
Proof.
  intros Hd Hu Hne Hfuel.
  exists (all_leafs (root (self w)) !! 0%nat ≫= payload). split.
  - unfold focus_first, first_leaf. run_method. rewrite head_lookup.
    destruct (all_leafs (root (self w))) as [| f l]; [congruence | reflexivity].
  - rewrite (walk_next_from w fuel 0 Hd Hu) by lia. reflexivity.
Qed.

Lemma walk_forward_visits_all_witness :
  exists first,
    focus_first (world_of three_leaf_root None None)
      = (Return first, world_of three_leaf_root None None) /\
    walk focus_next 5 first (world_of three_leaf_root None None)
      = Stopped (payloads three_leaf_root).
Proof.
  apply (walk_forward_visits_all (world_of three_leaf_root None None) 5).
  - apply (bool_decide_unpack _). vm_compute. exact I.
  - apply (bool_decide_unpack _). vm_compute. exact I.
  - discriminate.
  - simpl. lia.
Defined.

(** X2: a caller that starts at [focus_last] and follows [focus_previous]
    visits every window exactly once, in reverse leaf order; every call on
    the way returns, and the walk ends because [focus_previous] answers [None]
    before the first window. *)
Theorem walk_backward_visits_all (w : World) (fuel : nat) :
  distinct_nodes (root (self w)) ->
  unique_payloads (root (self w)) ->
  all_leafs (root (self w)) <> [] ->
  (length (all_leafs (root (self w))) <= fuel)%nat ->
  exists last,
    focus_last w = (Return last, w) /\
    walk focus_previous fuel last w = Stopped (reverse (payloads (root (self w)))).
Proof.
  intros Hd Hu Hne Hfuel.
  set (ls := all_leafs (root (self w))) in *.
  assert (0 < length ls)%nat as Hpos by (destruct ls; [congruence | simpl; lia]).
  destruct (lookup_lt_is_Some_2 ls (pred (length ls)) ltac:(lia)) as [e He].
  exists (payload e). split.
  - unfold focus_last, last_leaf. run_method. fold ls.
    rewrite last_lookup, He. reflexivity.
  - rewrite (walk_previous_from w (pred (length ls)) fuel e Hd Hu He) by lia.
    fold ls. replace (S (pred (length ls))) with (length ls) by lia.
    rewrite take_ge by lia. unfold payloads. fold ls. f_equal.
    clear. induction ls as [| a l IH]; [reflexivity |].
    rewrite reverse_cons, omap_app, IH. simpl.
    destruct (payload a); simpl; rewrite ?reverse_cons, ?app_nil_r; reflexivity.
Qed.

Lemma walk_backward_visits_all_witness :
  exists last,
    focus_last (world_of three_leaf_root None None)
      = (Return last, world_of three_leaf_root None None) /\
    walk focus_previous 3 last (world_of three_leaf_root None None)
      = Stopped (reverse (payloads three_leaf_root)).
Proof.
  apply (walk_backward_visits_all (world_of three_leaf_root None None) 3).
  - apply (bool_decide_unpack _). vm_compute. exact I.
  - apply (bool_decide_unpack _). vm_compute. exact I.
  - discriminate.
  - simpl. lia.
Defined.

(** ** The [next] and [previous] commands *)

Lemma next_run (w : World) :
  next w =
  match find_payload (root (self w)) (focused (self w)) with
  | Some n =>
      match group (self w) with
      | Some _ =>
          (Return tt,
           mkWorld (self w) (next_id w) (clock w)
                   (log w ++ [EvGroupFocus (payload (next_leaf (root (self w)) n))]))
      | None => (Raise RuntimeError, w)
      end
  | None => (Raise AttributeError, w)
  end.
Proof.
  unfold next, focused_node, focus_node, get_group. run_method.
  destruct (find_payload _ _); [| reflexivity].
  simpl. destruct (group (self w)); reflexivity.
Qed.

Lemma previous_run (w : World) :
  previous w =
  match find_payload (root (self w)) (focused (self w)) with
  | Some n =>
      match group (self w) with
      | Some _ =>
          (Return tt,
           mkWorld (self w) (next_id w) (clock w)
                   (log w ++ [EvGroupFocus (payload (prev_leaf (root (self w)) n))]))
      | None => (Raise RuntimeError, w)
      end
  | None => (Raise AttributeError, w)
  end.
Proof.
  unfold previous, focused_node, focus_node, get_group. run_method.
  destruct (find_payload _ _); [| reflexivity].
  simpl. destruct (group (self w)); reflexivity.
Qed.

(** X3: the commands [next] and [previous] cycle, on a layout attached to
    a group.  With the focused window
    on the leaf at position [i] of [N] leaves, [next] asks the group to focus
    the window at position [(i + 1) mod N] and [previous] the one at position
    [(i + N - 1) mod N]: after the last window comes the first one, and a
    single window is focused again.  Other than [focus_next], they never
    answer with "no window". *)
Theorem next_previous_cycle (w : World) (i : nat) (n : Node) :
  attached w ->
  distinct_nodes (root (self w)) ->
  unique_payloads (root (self w)) ->
  all_leafs (root (self w)) !! i = Some n ->
  focused (self w) = payload n ->
  exists a b : Payload,
    payloads (root (self w))
      !! ((i + 1) mod length (payloads (root (self w))))%nat = Some a /\
    payloads (root (self w))
      !! ((i + length (payloads (root (self w))) - 1)
          mod length (payloads (root (self w))))%nat = Some b /\
    next w = (Return tt, mkWorld (self w) (next_id w) (clock w)
                                 (log w ++ [EvGroupFocus (Some a)])) /\
    previous w = (Return tt, mkWorld (self w) (next_id w) (clock w)
                                     (log w ++ [EvGroupFocus (Some b)])).
Proof.
  intros [g Hg] Hd Hu Hi Hf.
  destruct (all_leafs_payload _ n (list_elem_of_lookup_2 _ _ _ Hi)) as [p Hp].
  pose proof (find_payload_at _ i n p Hu Hi Hp) as Hfind.
  rewrite next_run, previous_run, Hf, Hp, Hfind, Hg.
  unfold next_leaf, prev_leaf.
  rewrite (index_of_lookup _ i n (distinct_leaf_ids _ Hd) Hi).
  assert (Hlen : length (payloads (root (self w)))
                 = length (all_leafs (root (self w)))).
  { rewrite <- (length_fmap Some), payloads_fmap, length_fmap. reflexivity. }
  assert (Hlook : forall j x, all_leafs (root (self w)) !! j = Some x ->
                    exists q, payload x = Some q /\
                              payloads (root (self w)) !! j = Some q).
  { intros j x Hx.
    destruct (all_leafs_payload _ x (list_elem_of_lookup_2 _ _ _ Hx)) as [q Hq].
    exists q. split; [exact Hq |].
    apply (inj (fmap Some)). rewrite <- list_lookup_fmap, payloads_fmap.
    rewrite list_lookup_fmap, Hx. simpl. rewrite Hq. reflexivity. }
  rewrite Hlen.
  set (ls := all_leafs (root (self w))) in *.
  pose proof (lookup_lt_Some _ _ _ Hi) as Hlt.
  destruct (lookup_lt_is_Some_2 ls ((i + 1) mod length ls)%nat) as [s Hs].
  { apply Nat.mod_upper_bound. lia. }
  destruct (lookup_lt_is_Some_2 ls ((i + length ls - 1) mod length ls)%nat)
    as [q Hq].
  { apply Nat.mod_upper_bound. lia. }
  destruct (Hlook _ _ Hs) as (a & Ha & Hla).
  destruct (Hlook _ _ Hq) as (b & Hb & Hlb).
  exists a, b. rewrite Hs, Hq. simpl. rewrite Ha, Hb.
  repeat split; assumption.
Qed.

Lemma next_previous_cycle_witness :
  exists a b : Payload,
    payloads three_leaf_root !! ((2 + 1) mod 3)%nat = Some a /\
    payloads three_leaf_root !! ((2 + 3 - 1) mod 3)%nat = Some b /\
    next (world_of three_leaf_root (Some 9%nat) None)
      = (Return tt, mkWorld (self (world_of three_leaf_root (Some 9%nat) None))
                            10 100 [EvGroupFocus (Some a)]) /\
    previous (world_of three_leaf_root (Some 9%nat) None)
      = (Return tt, mkWorld (self (world_of three_leaf_root (Some 9%nat) None))
                            10 100 [EvGroupFocus (Some b)]).
Proof.
  apply (next_previous_cycle (world_of three_leaf_root (Some 9%nat) None) 2
           (leaf 4 9 6)).
  - vm_compute. eauto.
  - apply (bool_decide_unpack _). vm_compute. exact I.
  - apply (bool_decide_unpack _). vm_compute. exact I.
  - reflexivity.
  - reflexivity.
Defined.

(** ** Ties in [recent] *)

Lemma max_from_app {A} (key : A -> Z) (l1 l2 : list A) (best : A) :
  max_from key best (l1 ++ l2) = max_from key (max_from key best l1) l2.
Proof.
  revert best. induction l1 as [| a l1 IH]; intros best; simpl; [reflexivity |].
  apply IH.
Qed.

Lemma max_from_keeps {A} (key : A -> Z) (l : list A) (best : A) :
  Forall (fun x => key x <= key best) l -> max_from key best l = best.
Proof.
  induction 1 as [| a l Ha _ IH]; simpl; [reflexivity |].
  rewrite (proj2 (Z.ltb_ge (key best) (key a))) by exact Ha. exact IH.
Qed.

(** Python's [max] returns the first of the maximal elements. *)
Lemma max_from_first {A} (key : A -> Z) (l1 l2 : list A) (n x : A) (l : list A) :
  x :: l = l1 ++ n :: l2 ->
  Forall (fun y => key y < key n) l1 ->
  Forall (fun y => key y <= key n) l2 ->
  max_from key x l = n.
Proof.
  intros Hsplit H1 H2. destruct l1 as [| b l1]; simpl in Hsplit.
  - injection Hsplit as -> ->. apply max_from_keeps. exact H2.
  - injection Hsplit as -> ->. rewrite max_from_app. simpl.
    destruct (max_from_spec key l1 b) as [Hin _].
    rewrite Forall_forall in H1. specialize (H1 _ Hin).
    rewrite (proj2 (Z.ltb_lt _ _)) by exact H1.
    apply max_from_keeps. exact H2.
Qed.

(** X4: on a layout attached to a group, [recent] asks the group to focus
    the first leaf, in leaf order, whose [last_accessed] stamp is maximal
    among the leaves other than the focused node: with the leaf order split
    at a leaf [n] that is not the focused node, if every other leaf before [n]
    has a strictly smaller stamp and no other leaf after [n] has a greater
    one, the window of [n] is the one focused, so that later leaves with an
    equal stamp lose the tie. *)
Theorem recent_first_of_ties (w : World) (l1 l2 : list Node) (n : Node) :
  let fn := find_payload (root (self w)) (focused (self w)) in
  attached w ->
  all_leafs (root (self w)) = l1 ++ n :: l2 ->
  is_same (Some n) fn = false ->
  (forall m, m ∈ l1 -> is_same (Some m) fn = false ->
             last_accessed m < last_accessed n) ->
  (forall m, m ∈ l2 -> is_same (Some m) fn = false ->
             last_accessed m <= last_accessed n) ->
  recent w = (Return tt, mkWorld (self w) (next_id w) (clock w)
                                 (log w ++ [EvGroupFocus (payload n)])).
Proof.
  intros fn [g Hg] Hsplit Hn H1 H2. rewrite recent_run, Hg. fold fn.
  unfold recent_candidates. rewrite Hsplit, List.filter_app.
  cbn [List.filter]. rewrite Hn. cbn [negb].
  set (keep := fun m : Node => negb (is_same (Some m) fn)).
  assert (F1 : Forall (fun m => last_accessed m < last_accessed n)
                 (List.filter keep l1)).
  { apply Forall_forall. intros m Hm.
    apply list_elem_of_In, filter_In in Hm as [Hm Hk].
    apply H1; [apply list_elem_of_In; exact Hm |].
    apply negb_true_iff. exact Hk. }
  assert (F2 : Forall (fun m => last_accessed m <= last_accessed n)
                 (List.filter keep l2)).
  { apply Forall_forall. intros m Hm.
    apply list_elem_of_In, filter_In in Hm as [Hm Hk].
    apply H2; [apply list_elem_of_In; exact Hm |].
    apply negb_true_iff. exact Hk. }
  destruct (List.filter keep l1 ++ n :: List.filter keep l2) as [| x l] eqn:E.
  - destruct (List.filter keep l1); discriminate E.
  - rewrite (max_from_first last_accessed _ _ n x l (eq_sym E) F1 F2).
    reflexivity.
Qed.

Lemma recent_first_of_ties_witness :
  recent (world_of (container 0 Horizontal [leaf 1 7 5; leaf 2 8 9; leaf 3 9 9;
                                           leaf 4 6 2])
                   (Some 7%nat) None)
  = (Return tt,
     mkWorld (self (world_of (container 0 Horizontal
                                [leaf 1 7 5; leaf 2 8 9; leaf 3 9 9; leaf 4 6 2])
                             (Some 7%nat) None))
             10 100 [EvGroupFocus (Some 8%nat)]).
Proof.
  refine (recent_first_of_ties
            (world_of (container 0 Horizontal
                         [leaf 1 7 5; leaf 2 8 9; leaf 3 9 9; leaf 4 6 2])
                      (Some 7%nat) None)
            [leaf 1 7 5] [leaf 3 9 9; leaf 4 6 2] (leaf 2 8 9) _ _ _ _ _).
  - vm_compute. eauto.
  - reflexivity.
  - reflexivity.
  - intros m Hm Hother. apply list_elem_of_singleton in Hm. subst m.
    discriminate Hother.
  - intros m Hm _.
    repeat (apply elem_of_cons in Hm as [-> | Hm]; [simpl; lia |]).
    apply elem_of_nil in Hm. contradiction.
Defined.

(** ** A failed [focus] *)

(** X5: [focus] stores the client before it looks it up.  When no leaf
    holds the client, the call fails with the assertion and leaves the tree
    as it was, but [focused] names the absent client from then on: no node is
    focused, and the commands on the current window raise AttributeError. *)
Theorem focus_absent_leaves_focused_set (renormalize : Renormalize)
    (w : World) (p : Payload) (x : Z) :
  ~ present p (root (self w)) ->
  let w' := mkWorld (set_focused (Some p) (self w)) (next_id w) (clock w) (log w) in
  focus p w = (Raise AssertionError, w') /\
  root (self w') = root (self w) /\
  focused_node w' = (Return None, w') /\
  next w' = (Raise AttributeError, w') /\
  previous w' = (Raise AttributeError, w') /\
  Forall (fun op : M unit => op w' = (Raise AttributeError, w'))
         (minimize_and_resize renormalize x).
Proof.
  intros Hp%find_payload_absent w'.
  assert (Hnone : find_payload (root (self w')) (focused (self w')) = None)
    by exact Hp.
  split; [| split; [reflexivity | split; [| split; [| split]]]].
  - unfold focus. rewrite bind_run. cbn -[definitely_find_payload].
    rewrite bind_run, definitely_find_payload_run. cbn. rewrite Hp. reflexivity.
  - rewrite focused_node_run, Hnone. reflexivity.
  - rewrite next_run, Hnone. reflexivity.
  - rewrite previous_run, Hnone. reflexivity.
  - unfold minimize_and_resize, toggle_minimize_inline, size, width, height,
      reset_size.
    repeat constructor; rewrite ?on_focused_node_run, ?grow_run, Hnone; reflexivity.
Qed.

Lemma focus_absent_leaves_focused_set_witness :
  focus 42 (world_of three_leaf_root (Some 8%nat) None)
    = (Raise AssertionError, world_of three_leaf_root (Some 42%nat) None) /\
  size keep_weights 300 (world_of three_leaf_root (Some 42%nat) None)
    = (Raise AttributeError, world_of three_leaf_root (Some 42%nat) None).
Proof.
  destruct (focus_absent_leaves_focused_set keep_weights
              (world_of three_leaf_root (Some 8%nat) None) 42 300)
    as (Hfocus & _ & _ & _ & _ & Hops).
  { apply (bool_decide_unpack _). vm_compute. exact I. }
  split; [exact Hfocus |].
  apply Forall_cons in Hops as [_ Hops].
  apply Forall_cons in Hops as [Hsize _].
  exact Hsize.
Defined.

(** ** In-place changes of a leaf *)

Lemma leaf_change_stamp (t : Time) : leaf_change (stamp t).
Proof. split; [reflexivity |]. intros b p t0 m. simpl. eauto. Qed.

Lemma leaf_change_id (f : Node -> Node) (x : Node) :
  leaf_change f -> node_id (f x) = node_id x.
Proof.
  intros [HC HL]. destruct x as [b p t m | b o cs].
  - destruct (HL b p t m) as (b' & t' & m' & -> & Hid). exact Hid.
  - rewrite HC. reflexivity.
Qed.

Lemma leaf_change_payload (f : Node -> Node) (x : Node) :
  leaf_change f -> payload (f x) = payload x.
Proof.
  intros [HC HL]. destruct x as [b p t m | b o cs].
  - destruct (HL b p t m) as (b' & t' & m' & -> & _). reflexivity.
  - rewrite HC. reflexivity.
Qed.

Lemma leaf_ids_in_children (cs : list Node) (n : Node) :
  n ∈ flat_map all_leafs cs -> node_id n ∈ flat_map node_ids cs.
Proof.
  intros Hin. apply list_elem_of_In, in_flat_map in Hin as (c & Hc & Hn).
  apply list_elem_of_In, in_flat_map. exists c. split; [exact Hc |].
  apply list_elem_of_In. apply list_elem_of_In in Hn.
  eapply elem_of_sublist; [| apply leaf_ids_sublist].
  apply list_elem_of_fmap_2. exact Hn.
Qed.

(** Changing the leaf [id] in place changes that leaf in the leaf order
    and nothing else. *)
Lemma leaf_change_shape (f : Node -> Node) : leaf_change f -> leaf_shape f.
Proof.
  intros [HC HL]. split; [exact HC |]. intros b p t m.
  destruct (HL b p t m) as (b' & t' & m' & H & Hid). eauto 10.
Qed.

Lemma all_leafs_update (id : NodeId) (f : Node -> Node) (r : Node) :
  leaf_shape f -> distinct_nodes r ->
  all_leafs (update_node id f r)
  = (fun n => if Nat.eqb (node_id n) id then f n else n) <$> all_leafs r.
Proof.
  intros Hf. pose proof Hf as [HC HL]. unfold distinct_nodes.
  induction r as [b p t m | b o cs IH] using Node_ind; intros Hd.
  - unfold update_node. simpl.
    change (node_id (Leaf b p t m)) with (box_id b).
    destruct (Nat.eqb (box_id b) id); [| reflexivity].
    destruct (HL b p t m) as (b' & p' & t' & m' & -> & _). reflexivity.
  - simpl in Hd. apply NoDup_cons in Hd as [Hb Hd].
    simpl. change (node_id (Container b o cs)) with (box_id b).
    destruct (Nat.eqb (box_id b) id) eqn:E.
    + rewrite HC. simpl. apply Nat.eqb_eq in E. subst id.
      symmetry. rewrite <- (list_fmap_id (flat_map all_leafs cs)) at 2.
      apply list_fmap_ext. intros i n Hn. simpl.
      destruct (Nat.eqb (node_id n) (box_id b)) eqn:E'; [| reflexivity].
      exfalso. apply Hb. apply Nat.eqb_eq in E'. rewrite <- E'.
      apply leaf_ids_in_children. eapply list_elem_of_lookup_2, Hn.
    + simpl. clear Hb E.
      induction IH as [| c cs Hc _ IHcs]; simpl; [reflexivity |].
      simpl in Hd. apply NoDup_app in Hd as (Hdc & _ & Hdcs).
      rewrite fmap_app, (Hc Hdc), (IHcs Hdcs). reflexivity.
Qed.

Lemma node_ids_update (id : NodeId) (f : Node -> Node) (r : Node) :
  leaf_shape f -> node_ids (update_node id f r) = node_ids r.
Proof.
  intros [HC HL].
  induction r as [b p t m | b o cs IH] using Node_ind.
  - unfold update_node. change (node_id (Leaf b p t m)) with (box_id b).
    destruct (Nat.eqb (box_id b) id); [| reflexivity].
    destruct (HL b p t m) as (b' & p' & t' & m' & -> & Hid). simpl. congruence.
  - simpl. change (node_id (Container b o cs)) with (box_id b).
    destruct (Nat.eqb (box_id b) id); [rewrite HC; reflexivity |].
    simpl. f_equal.
    induction IH as [| c cs Hc _ IHcs]; simpl; [reflexivity |].
    rewrite Hc, IHcs. reflexivity.
Qed.

Lemma find_fmap {A} (P : A -> bool) (g : A -> A) (l : list A) :
  (forall x, P (g x) = P x) -> List.find P (g <$> l) = g <$> List.find P l.
Proof.
  intros HP. induction l as [| a l IH]; simpl; [reflexivity |].
  rewrite HP. destruct (P a); [reflexivity | exact IH].
Qed.

(** After an in-place change of a leaf, the search for a payload finds
    the same leaf object, changed when it is the one that was changed. *)
Lemma find_payload_update (id : NodeId) (f : Node -> Node) (r : Node)
    (key : option Payload) :
  leaf_change f -> distinct_nodes r ->
  find_payload (update_node id f r) key
  = (fun n => if Nat.eqb (node_id n) id then f n else n) <$> find_payload r key.
Proof.
  intros Hf Hd.
  rewrite !find_payload_first_leaf,
    (all_leafs_update id f r (leaf_change_shape f Hf) Hd).
  apply find_fmap. intros x.
  destruct (Nat.eqb (node_id x) id); [| reflexivity].
  rewrite (leaf_change_payload f x Hf). reflexivity.
Qed.

Lemma focus_run (w : World) (p : Payload) (n : Node) :
  find_payload (root (self w)) (Some p) = Some n ->
  focus p w =
  (Return tt,
   mkWorld (set_root (update_node (node_id n) (stamp (clock w)) (root (self w)))
                     (set_focused (Some p) (self w)))
           (next_id w) (clock w) (log w)).
Proof.
  intros Hn. unfold focus. rewrite bind_run. cbn -[definitely_find_payload].
  rewrite bind_run, definitely_find_payload_run. cbn. rewrite Hn. reflexivity.
Qed.

Lemma max_from_unique {A} (key : A -> Z) (x : A) (l : list A) (n : A) :
  n ∈ x :: l ->
  (forall m, m ∈ x :: l -> key m < key n \/ m = n) ->
  max_from key x l = n.
Proof.
  intros Hn Hall. destruct (max_from_spec key l x) as [Hin Hmax].
  destruct (Hall _ Hin) as [Hlt | Heq]; [| exact Heq].
  specialize (Hmax _ Hn). lia.
Qed.

Lemma stamp_id (t : Time) (x : Node) : node_id (stamp t x) = node_id x.
Proof. destruct x; reflexivity. Qed.

Lemma stamp_payload (t : Time) (x : Node) : payload (stamp t x) = payload x.
Proof. destruct x; reflexivity. Qed.

Lemma stamp_last_accessed (t : Time) (x : Node) :
  is_Some (payload x) -> last_accessed (stamp t x) = t.
Proof. destruct x; [reflexivity | intros [? H]; discriminate H]. Qed.

(** ** Toggling with [recent] *)

(** X6: on a layout attached to a group, [recent] toggles between the two
    latest active windows.  After
    [focus a], made at a time later than every stamp in the tree, and then
    [focus b] on another window, made at any time, [recent] asks the group to
    focus [a]. *)
Theorem recent_toggles_to_previous_focus (w : World) (a b : Payload) (t2 : Time) :
  attached w ->
  distinct_nodes (root (self w)) ->
  present a (root (self w)) ->
  present b (root (self w)) ->
  a <> b ->
  (forall m, m ∈ all_leafs (root (self w)) -> last_accessed m < clock w) ->
  let w1 := (focus a w).2 in
  let w2 := (focus b (set_clock t2 w1)).2 in
  returns (focus a w) = true /\
  returns (focus b (set_clock t2 w1)) = true /\
  focused (self w2) = Some b /\
  recent w2 = (Return tt, mkWorld (self w2) (next_id w2) (clock w2)
                                  (log w2 ++ [EvGroupFocus (Some a)])).
Proof.
  intros [g Hg] Hd [La Ha]%find_payload_present [Lb Hb]%find_payload_present
    Hab Hold.
  set (r := root (self w)) in *.
  destruct (find_payload_Some _ _ _ Ha) as [HLa HpLa].
  destruct (find_payload_Some _ _ _ Hb) as [HLb HpLb].
  set (r1 := update_node (node_id La) (stamp (clock w)) r).
  set (r2 := update_node (node_id Lb) (stamp t2) r1).
  assert (Hd1 : distinct_nodes r1).
  { unfold distinct_nodes, r1.
    rewrite node_ids_update by apply leaf_change_shape, leaf_change_stamp.
    exact Hd. }
  assert (Hne : Nat.eqb (node_id Lb) (node_id La) = false).
  { destruct (Nat.eqb (node_id Lb) (node_id La)) eqn:E; [| reflexivity].
    exfalso. apply Hab.
    assert (Lb = La) as Heq
      by (apply (same_node_eq (all_leafs r)); auto using distinct_leaf_ids).
    rewrite Heq in HpLb. congruence. }
  assert (Hne' : Nat.eqb (node_id La) (node_id Lb) = false)
    by (rewrite Nat.eqb_sym; exact Hne).
  assert (Hb1 : find_payload r1 (Some b) = Some Lb).
  { unfold r1. rewrite find_payload_update, Hb by (apply leaf_change_stamp || exact Hd).
    simpl. rewrite Hne. reflexivity. }
  assert (Hb2 : find_payload r2 (Some b) = Some (stamp t2 Lb)).
  { unfold r2. rewrite find_payload_update, Hb1 by (apply leaf_change_stamp || exact Hd1).
    simpl. rewrite Nat.eqb_refl. reflexivity. }
  assert (Hleaves : all_leafs r2
            = (fun n => if Nat.eqb (node_id n) (node_id Lb) then stamp t2 n else n)
              <$> ((fun n => if Nat.eqb (node_id n) (node_id La)
                             then stamp (clock w) n else n) <$> all_leafs r)).
  { unfold r2.
    rewrite all_leafs_update
      by (apply leaf_change_shape, leaf_change_stamp || exact Hd1).
    unfold r1.
    rewrite all_leafs_update
      by (apply leaf_change_shape, leaf_change_stamp || exact Hd).
    reflexivity. }
  intros w1 w2.
  assert (Hw1 : focus a w =
            (Return tt, mkWorld (set_root r1 (set_focused (Some a) (self w)))
                                (next_id w) (clock w) (log w)))
    by exact (focus_run w a La Ha).
  assert (Hw2 : focus b (set_clock t2 w1) =
            (Return tt,
             mkWorld (set_root r2 (set_focused (Some b)
                        (set_root r1 (set_focused (Some a) (self w)))))
                     (next_id w) t2 (log w))).
  { subst w1. rewrite Hw1. simpl.
    exact (focus_run
             (set_clock t2 (mkWorld (set_root r1 (set_focused (Some a) (self w)))
                                    (next_id w) (clock w) (log w)))
             b Lb Hb1). }
  subst w2. rewrite Hw1, Hw2. simpl.
  split; [reflexivity | split; [reflexivity | split; [reflexivity |]]].
  rewrite recent_run. simpl. rewrite Hb2, Hg.
  set (La1 := stamp (clock w) La).
  assert (Hin : La1 ∈ recent_candidates r2 (Some (stamp t2 Lb))).
  { unfold recent_candidates. apply list_elem_of_In, filter_In. split.
    - apply list_elem_of_In. rewrite Hleaves.
      apply list_elem_of_fmap. exists La1. split.
      + unfold La1. rewrite stamp_id, Hne'. reflexivity.
      + apply list_elem_of_fmap. exists La. split; [| exact HLa].
        rewrite Nat.eqb_refl. reflexivity.
    - simpl. unfold same_node, La1. rewrite !stamp_id, Hne'. reflexivity. }
  assert (Hall : forall m, m ∈ recent_candidates r2 (Some (stamp t2 Lb)) ->
                   last_accessed m < last_accessed La1 \/ m = La1).
  { intros m Hm. unfold recent_candidates in Hm.
    apply list_elem_of_In, filter_In in Hm as [Hm Hother].
    apply list_elem_of_In in Hm. rewrite Hleaves in Hm.
    apply list_elem_of_fmap in Hm as (m1 & -> & Hm1).
    apply list_elem_of_fmap in Hm1 as (m0 & -> & Hm0).
    unfold La1. rewrite (stamp_last_accessed _ La) by (rewrite HpLa; eauto).
    destruct (Nat.eqb (node_id m0) (node_id La)) eqn:E1.
    - assert (m0 = La) as ->
        by (apply (same_node_eq (all_leafs r)); auto using distinct_leaf_ids).
      right. rewrite stamp_id, Hne'. reflexivity.
    - destruct (Nat.eqb (node_id m0) (node_id Lb)) eqn:E2.
      + exfalso. simpl in Hother. unfold same_node in Hother.
        rewrite !stamp_id, E2 in Hother. discriminate Hother.
      + left. apply Hold. exact Hm0. }
  destruct (recent_candidates r2 (Some (stamp t2 Lb))) as [| x l].
  - apply elem_of_nil in Hin. contradiction.
  - rewrite (max_from_unique last_accessed x l La1 Hin Hall).
    unfold La1. rewrite stamp_payload, HpLa. reflexivity.
Qed.

Lemma recent_toggles_to_previous_focus_witness :
  recent (focus 9 (set_clock 120 (focus 7 (world_of three_leaf_root None None)).2)).2
  = (Return tt,
     mkWorld (self (focus 9 (set_clock 120
                       (focus 7 (world_of three_leaf_root None None)).2)).2)
             10 120 [EvGroupFocus (Some 7%nat)]).
Proof.
  refine (proj2 (proj2 (proj2
    (recent_toggles_to_previous_focus (world_of three_leaf_root None None)
       7 9 120 _ _ _ _ _ _)))).
  - vm_compute. eauto.
  - apply (bool_decide_unpack _). vm_compute. exact I.
  - apply (bool_decide_unpack _). vm_compute. exact I.
  - apply (bool_decide_unpack _). vm_compute. exact I.
  - discriminate.
  - intros m Hm. simpl in Hm.
    repeat (apply elem_of_cons in Hm as [-> | Hm]; [simpl; lia |]).
    apply elem_of_nil in Hm. contradiction.
Defined.

(** ** Placing a window *)

Lemma deref_run (o : option Node) (w : World) :
  deref o w = match o with
              | Some n => (Return n, w)
              | None => (Raise AttributeError, w)
              end.
Proof. destruct o; reflexivity. Qed.

Lemma with_box_leaves (f : Box -> Box) (r : Node) :
  payload <$> all_leafs (with_box f r) = payload <$> all_leafs r.
Proof. destruct r; reflexivity. Qed.

Lemma configure_run (pixel_perfect : Node -> Node -> Rect)
    (flexible : Node -> Node -> bool) (client : Payload) (has_focus : bool)
    (screen_rect : Rect) (w : World) :
  let r := with_box (set_rect screen_rect) (root (self w)) in
  let w' := mkWorld (set_root r (self w)) (next_id w) (clock w) (log w) in
  let single := tree_is (tree r) (find_payload r (Some client)) in
  let bw := if single then border_width_single (config (self w))
            else border_width (config (self w)) in
  let mg := if single then margin_single (config (self w))
            else margin (config (self w)) in
  configure pixel_perfect flexible client has_focus screen_rect w =
  match find_payload r (Some client) with
  | Some n =>
      (Return [Place (rect_x (pixel_perfect r n)) (rect_y (pixel_perfect r n))
                     (rect_width (pixel_perfect r n) - 2 * bw)
                     (rect_height (pixel_perfect r n) - 2 * bw)
                     bw (border_color (config (self w)) has_focus (flexible r n))
                     mg;
               WindowConfigureBelow; Unhide], w')
  | None => (Raise AttributeError, w')
  end.
Proof.
  unfold configure. run_method.
  destruct (find_payload _ _); reflexivity.
Qed.

(** X7: [configure] for a client that no leaf holds raises AttributeError,
    but only after the root has taken the screen rectangle: the failed call
    has changed the geometry of the root, and nothing else of the tree. *)
Theorem configure_absent_client (pixel_perfect : Node -> Node -> Rect)
    (flexible : Node -> Node -> bool) (client : Payload) (has_focus : bool)
    (screen_rect : Rect) (w : World) :
  ~ present client (root (self w)) ->
  let w' := (configure pixel_perfect flexible client has_focus screen_rect w).2 in
  raises AttributeError
    (configure pixel_perfect flexible client has_focus screen_rect w) = true /\
  box_rect (box (root (self w'))) = screen_rect /\
  root (self w') = with_box (set_rect screen_rect) (root (self w)).
Proof.
  intros Hp w'. subst w'. rewrite configure_run. cbv zeta.
  assert (Hnone : find_payload (with_box (set_rect screen_rect) (root (self w)))
                    (Some client) = None).
  { apply find_payload_absent. unfold present in *.
    rewrite with_box_leaves. exact Hp. }
  rewrite Hnone. simpl. destruct (root (self w)); repeat split; reflexivity.
Qed.

Lemma configure_absent_client_witness :
  raises AttributeError
    (configure (fun _ n => box_rect (box n)) (fun _ _ => true) 42 true
               (mkRect 0 0 1920 1080) (world_of three_leaf_root None None)) = true /\
  box_rect (box (root (self
    (configure (fun _ n => box_rect (box n)) (fun _ _ => true) 42 true
               (mkRect 0 0 1920 1080) (world_of three_leaf_root None None)).2)))
  = mkRect 0 0 1920 1080.
Proof.
  destruct (configure_absent_client (fun _ n => box_rect (box n)) (fun _ _ => true)
              42 true (mkRect 0 0 1920 1080) (world_of three_leaf_root None None))
    as (Hraise & Hrect & _).
  { apply (bool_decide_unpack _). vm_compute. exact I. }
  split; assumption.
Defined.

(** X8: [configure] for a client held by the leaf [n] makes three calls on
    the client, in this order: [place], with the pixel rectangle of the leaf
    shrunk by twice the border width, then the stacking below floating
    windows, then [unhide].  The single-window border width and margin are
    used exactly when that leaf is the only child of the root; in every other
    tree the normal border width and margin are used. *)
Theorem configure_places_client (pixel_perfect : Node -> Node -> Rect)
    (flexible : Node -> Node -> bool) (client : Payload) (has_focus : bool)
    (screen_rect : Rect) (w : World) (n : Node) :
  payload (root (self w)) = None ->
  find_payload (root (self w)) (Some client) = Some n ->
  let r := with_box (set_rect screen_rect) (root (self w)) in
  let cfg := config (self w) in
  exists single : bool,
    (single = true <-> children (root (self w)) = [n]) /\
    configure pixel_perfect flexible client has_focus screen_rect w =
    (Return
       [Place (rect_x (pixel_perfect r n)) (rect_y (pixel_perfect r n))
              (rect_width (pixel_perfect r n)
               - 2 * (if single then border_width_single cfg else border_width cfg))
              (rect_height (pixel_perfect r n)
               - 2 * (if single then border_width_single cfg else border_width cfg))
              (if single then border_width_single cfg else border_width cfg)
              (border_color cfg has_focus (flexible r n))
              (if single then margin_single cfg else margin cfg);
        WindowConfigureBelow; Unhide],
     mkWorld (set_root r (self w)) (next_id w) (clock w) (log w)).
Proof.
  intros Hroot Hfind r cfg. subst r cfg. rewrite configure_run. cbv zeta.
  destruct (root (self w)) as [b p t m | b o cs] eqn:Er; [discriminate Hroot |].
  change (find_payload (with_box (set_rect screen_rect) (Container b o cs))
            (Some client))
    with (find_payload (Container b o cs) (Some client)).
  rewrite Hfind.
  exists (tree_is (tree (Container b o cs)) (Some n)). split; [| reflexivity].
  destruct (find_payload_Some _ _ _ Hfind) as [Hin Hp].
  unfold tree. simpl. split.
  - intros Hsingle. destruct cs as [| c cs]; [discriminate Hsingle |].
    destruct c as [b' p' t' m' | b' o' cs']; simpl in Hsingle;
      [| discriminate Hsingle].
    destruct cs as [| c' cs]; [| discriminate Hsingle].
    simpl in Hin. apply list_elem_of_singleton in Hin. rewrite Hin. reflexivity.
  - intros ->.
    destruct n as [b' p' t' m' | b' o' cs']; [| discriminate Hp].
    simpl. apply same_node_refl.
Qed.

Lemma configure_places_client_witness :
  exists single : bool,
    (single = true <-> children one_leaf_root = [leaf 1 7 5]) /\
    configure (fun _ _ => mkRect 0 0 1920 1080) (fun _ _ => true) 7 true
              (mkRect 0 0 1920 1080) (world_of one_leaf_root (Some 7%nat) None)
    = (Return
         [Place 0 0
                (1920 - 2 * (if single then 0 else 1))
                (1080 - 2 * (if single then 0 else 1))
                (if single then 0 else 1)
                "#00e891"
                (if single then 0 else 0);
          WindowConfigureBelow; Unhide],
       mkWorld (set_root (with_box (set_rect (mkRect 0 0 1920 1080)) one_leaf_root)
                         (self (world_of one_leaf_root (Some 7%nat) None)))
               10 100 []).
Proof.
  refine (configure_places_client (fun _ _ => mkRect 0 0 1920 1080)
            (fun _ _ => true) 7 true (mkRect 0 0 1920 1080)
            (world_of one_leaf_root (Some 7%nat) None) (leaf 1 7 5) _ _).
  - reflexivity.
  - reflexivity.
Defined.

(** ** Introspection *)





(** ** Removing a window *)

Lemma container_ids_sublist (r : Node) : container_ids r `sublist_of` node_ids r.
Proof.
  induction r as [b p t m | b o cs IH] using Node_ind; simpl.
  - apply sublist_nil_l.
  - apply sublist_skip.
    induction IH as [| c cs Hc _ IHcs]; simpl; [constructor |].
    apply sublist_app; assumption.
Qed.

Lemma flat_map_sublist {A B} (f g : A -> list B) (l : list A) :
  Forall (fun x => f x `sublist_of` g x) l ->
  flat_map f l `sublist_of` flat_map g l.
Proof.
  induction 1 as [| x l Hx _ IH]; simpl; [constructor |].
  apply sublist_app; assumption.
Qed.

(** With distinct node objects, no container has the identity of a leaf. *)
Lemma leaf_id_not_container (r L : Node) :
  distinct_nodes r -> L ∈ all_leafs r -> node_id L ∉ container_ids r.
Proof.
  unfold distinct_nodes.
  induction r as [b p t m | b o cs IH] using Node_ind; intros Hd HL; simpl.
  - apply not_elem_of_nil.
  - simpl in Hd, HL. apply NoDup_cons in Hd as [Hb Hd].
    apply not_elem_of_cons. split.
    + intros Heq. apply Hb. rewrite <- Heq. apply leaf_ids_in_children. exact HL.
    + clear Hb. induction IH as [| c cs Hc _ IHcs]; simpl in *.
      * apply not_elem_of_nil.
      * apply NoDup_app in Hd as (Hdc & Hdisj & Hdcs).
        apply elem_of_app in HL as [HL | HL]; apply not_elem_of_app; split.
        -- apply Hc; assumption.
        -- intros Hin. apply (Hdisj (node_id L)).
           ++ eapply elem_of_sublist; [| apply leaf_ids_sublist].
              apply list_elem_of_fmap_2. exact HL.
           ++ eapply elem_of_sublist; [exact Hin |].
              apply flat_map_sublist, Forall_forall.
              intros x _. apply container_ids_sublist.
        -- intros Hin. apply (Hdisj (node_id L)).
           ++ eapply elem_of_sublist; [exact Hin | apply container_ids_sublist].
           ++ apply leaf_ids_in_children. exact HL.
        -- apply IHcs; assumption.
Qed.

Lemma all_leafs_detach (id : NodeId) (is_root : bool) (r : Node) :
  id ∉ container_ids r ->
  payload r = None \/ node_id r <> id ->
  all_leafs (detach id is_root r)
  = List.filter (fun n => negb (Nat.eqb (node_id n) id)) (all_leafs r).
Proof.
  revert is_root.
  induction r as [b p t m | b o cs IH] using Node_ind; intros is_root Hc Hr.
  - destruct Hr as [Hr | Hr]; [discriminate Hr |].
    simpl. change (node_id (Leaf b p t m)) with (box_id b) in *.
    rewrite (proj2 (Nat.eqb_neq _ _) Hr). reflexivity.
  - simpl in Hc. apply not_elem_of_cons in Hc as [_ Hc].
    assert (Hcs : flat_map all_leafs
                    (flat_map (fun c => if Nat.eqb (node_id c) id then []
                                        else [detach id false c]) cs)
                  = List.filter (fun n => negb (Nat.eqb (node_id n) id))
                      (flat_map all_leafs cs)).
    { clear Hr. induction IH as [| c cs Hcd _ IHcs]; simpl; [reflexivity |].
      simpl in Hc. apply not_elem_of_app in Hc as [Hcc Hccs].
      rewrite List.filter_app, <- (IHcs Hccs).
      destruct (Nat.eqb (node_id c) id) eqn:E; simpl.
      - destruct c as [b' p' t' m' | b' o' cs'].
        + simpl. rewrite E. reflexivity.
        + exfalso. apply Hcc. apply Nat.eqb_eq in E. rewrite <- E. left.
      - rewrite (Hcd false Hcc); [reflexivity |].
        right. apply Nat.eqb_neq. exact E. }
    simpl.
    set (cs' := flat_map (fun c => if Nat.eqb (node_id c) id then []
                                   else [detach id false c]) cs) in *.
    destruct (has_child id cs && negb is_root); simpl; [| exact Hcs].
    destruct cs' as [| only [| c' l]]; simpl in *;
      rewrite ?app_nil_r in Hcs; exact Hcs.
Qed.

Lemma omap_filter_payload (p : Payload) (id : NodeId) (l : list Node) :
  Forall (fun n => Nat.eqb (node_id n) id = bool_decide (payload n = Some p)) l ->
  omap payload (List.filter (fun n => negb (Nat.eqb (node_id n) id)) l)
  = without p (omap payload l).
Proof.
  induction 1 as [| n l Hn _ IH]; simpl; [reflexivity |].
  rewrite Hn. destruct (payload n) as [q |] eqn:Hq; simpl.
  - destruct (decide (q = p)) as [-> | Hne].
    + rewrite bool_decide_eq_true_2 by reflexivity. simpl.
      rewrite Nat.eqb_refl. simpl. exact IH.
    + rewrite bool_decide_eq_false_2 by congruence. simpl.
      rewrite Hq, (proj2 (Nat.eqb_neq q p) Hne). simpl. f_equal. exact IH.
  - rewrite Hq. exact IH.
Qed.

Lemma remove_run (w : World) (p : Payload) (n : Node) :
  find_payload (root (self w)) (Some p) = Some n ->
  remove p w =
  (Return tt,
   mkWorld (set_tree (node_remove n (root (self w)) (restorables (self w))) (self w))
           (next_id w) (clock w) (log w)).
Proof.
  intros Hn. unfold remove. rewrite bind_run, definitely_find_payload_run, Hn.
  reflexivity.
Qed.

(** What [remove] does to the leaf order of a well-formed tree. *)
Lemma payloads_after_remove (w : World) (p : Payload) (n : Node) :
  distinct_nodes (root (self w)) ->
  unique_payloads (root (self w)) ->
  payload (root (self w)) = None ->
  find_payload (root (self w)) (Some p) = Some n ->
  payloads (detach (node_id n) true (root (self w)))
  = without p (payloads (root (self w))).
Proof.
  intros Hd Hu Hroot Hn. unfold payloads.
  destruct (find_payload_Some _ _ _ Hn) as [Hin Hp].
  rewrite all_leafs_detach;
    [| apply leaf_id_not_container; assumption | left; exact Hroot].
  apply omap_filter_payload, Forall_forall. intros m Hm.
  destruct (Nat.eqb (node_id m) (node_id n)) eqn:E.
  - assert (m = n) as ->
      by (apply (same_node_eq (all_leafs (root (self w))));
          auto using distinct_leaf_ids).
    rewrite bool_decide_eq_true_2 by exact Hp. reflexivity.
  - rewrite bool_decide_eq_false_2; [reflexivity |].
    intros Hpm.
    apply list_elem_of_lookup_1 in Hm as [i Hi].
    apply list_elem_of_lookup_1 in Hin as [j Hj].
    assert (i = j) as ->.
    { apply (NoDup_lookup _ i j (Some p) Hu);
        rewrite list_lookup_fmap; [rewrite Hi | rewrite Hj]; simpl; congruence. }
    assert (m = n) as -> by congruence.
    rewrite Nat.eqb_refl in E. discriminate E.
Qed.

Lemma without_absent (p : Payload) (l : list Payload) : p ∉ without p l.
Proof.
  unfold without. intros Hin. apply list_elem_of_In, filter_In in Hin as [_ Hne].
  rewrite Nat.eqb_refl in Hne. discriminate Hne.
Qed.

Lemma present_payloads (p : Payload) (r : Node) : present p r <-> p ∈ payloads r.
Proof.
  unfold present. rewrite <- payloads_fmap. split.
  - intros (q & [= ->] & Hq)%list_elem_of_fmap. exact Hq.
  - intros H. apply list_elem_of_fmap_2. exact H.
Qed.

(** X10: on a well-formed tree, [remove] of a window that is present
    returns, takes exactly that window out of the leaf order and keeps the
    other windows in their order; the window is absent afterwards.  The
    fields [focused] and [add_mode] are not written. *)
Theorem remove_takes_out_that_window (w : World) (p : Payload) :
  distinct_nodes (root (self w)) ->
  unique_payloads (root (self w)) ->
  payload (root (self w)) = None ->
  present p (root (self w)) ->
  let w' := (remove p w).2 in
  returns (remove p w) = true /\
  payloads (root (self w')) = without p (payloads (root (self w))) /\
  ~ present p (root (self w')) /\
  focused (self w') = focused (self w) /\
  add_mode (self w') = add_mode (self w).
Proof.
  intros Hd Hu Hroot [n Hn]%find_payload_present w'. subst w'.
  rewrite (remove_run w p n Hn). simpl.
  pose proof (payloads_after_remove w p n Hd Hu Hroot Hn) as Hpay.
  repeat split; try reflexivity; [exact Hpay |].
  rewrite present_payloads, Hpay. apply without_absent.
Qed.

Lemma remove_takes_out_that_window_witness :
  payloads (root (self (remove 8 (world_of three_leaf_root (Some 8%nat) None)).2))
    = [7%nat; 9%nat] /\
  focused (self (remove 8 (world_of three_leaf_root (Some 8%nat) None)).2)
    = Some 8%nat.
Proof.
  destruct (remove_takes_out_that_window
              (world_of three_leaf_root (Some 8%nat) None) 8)
    as (_ & Hpay & _ & Hfocus & _).
  - apply (bool_decide_unpack _). vm_compute. exact I.
  - apply (bool_decide_unpack _). vm_compute. exact I.
  - reflexivity.
  - apply (bool_decide_unpack _). vm_compute. exact I.
  - split; [exact Hpay | exact Hfocus].
Defined.

(** X11: [remove] does not reset [focused].  After the focused window is
    removed from a well-formed tree, [focused] still names it while no leaf
    holds it: [focused_node] is [None], the commands on the current window
    raise AttributeError, and the next [add_client] has the root as its
    target. *)
Theorem remove_focused_leaves_focus_dangling (renormalize : Renormalize)
    (w : World) (p : Payload) (x : Z) :
  distinct_nodes (root (self w)) ->
  unique_payloads (root (self w)) ->
  payload (root (self w)) = None ->
  present p (root (self w)) ->
  focused (self w) = Some p ->
  let w' := (remove p w).2 in
  focused (self w') = Some p /\
  focused_node w' = (Return None, w') /\
  next w' = (Raise AttributeError, w') /\
  previous w' = (Raise AttributeError, w') /\
  Forall (fun op : M unit => op w' = (Raise AttributeError, w'))
         (minimize_and_resize renormalize x) /\
  add_target w' = root (self w').
Proof.
  intros Hd Hu Hroot Hp Hfocus w'.
  assert (Hf : focused (self w') = Some p).
  { destruct (proj1 (find_payload_present _ _) Hp) as [n Hn].
    subst w'. rewrite (remove_run w p n Hn). exact Hfocus. }
  assert (Hnone : find_payload (root (self w')) (focused (self w')) = None).
  { rewrite Hf. apply find_payload_absent.
    destruct (proj1 (find_payload_present _ _) Hp) as [n Hn].
    subst w'. rewrite (remove_run w p n Hn). simpl.
    rewrite present_payloads, (payloads_after_remove w p n Hd Hu Hroot Hn).
    apply without_absent. }
  split; [exact Hf |].
  split; [rewrite focused_node_run, Hnone; reflexivity |].
  split; [rewrite next_run, Hnone; reflexivity |].
  split; [rewrite previous_run, Hnone; reflexivity |].
  split.
  - unfold minimize_and_resize, toggle_minimize_inline, size, width, height,
      reset_size.
    repeat constructor; rewrite ?on_focused_node_run, ?grow_run, Hnone; reflexivity.
  - unfold add_target. rewrite Hnone. reflexivity.
Qed.

Lemma remove_focused_leaves_focus_dangling_witness :
  focused (self (remove 8 (world_of three_leaf_root (Some 8%nat) None)).2)
    = Some 8%nat /\
  next (remove 8 (world_of three_leaf_root (Some 8%nat) None)).2
    = (Raise AttributeError,
       (remove 8 (world_of three_leaf_root (Some 8%nat) None)).2).
Proof.
  destruct (remove_focused_leaves_focus_dangling keep_weights
              (world_of three_leaf_root (Some 8%nat) None) 8 300)
    as (Hfocus & _ & Hnext & _).
  - apply (bool_decide_unpack _). vm_compute. exact I.
  - apply (bool_decide_unpack _). vm_compute. exact I.
  - reflexivity.
  - apply (bool_decide_unpack _). vm_compute. exact I.
  - reflexivity.
  - split; [exact Hfocus | exact Hnext].
Defined.

(** ** What [add_client] adds *)

Lemma payloads_container (b : Box) (o : Orientation) (cs : list Node) :
  payloads (Container b o cs) = flat_map payloads cs.
Proof.
  unfold payloads. simpl. induction cs as [| c cs IH]; simpl; [reflexivity |].
  rewrite omap_app, IH. reflexivity.
Qed.

Lemma payloads_with_box (f : Box -> Box) (x : Node) :
  payloads (with_box f x) = payloads x.
Proof. destruct x; reflexivity. Qed.

Lemma elem_of_flat_map {A B} (f : A -> list B) (l : list A) (y : B) :
  y ∈ flat_map f l <-> exists x, x ∈ l /\ y ∈ f x.
Proof.
  rewrite list_elem_of_In, in_flat_map. split; intros (x & Hx & Hy); exists x;
    split; apply list_elem_of_In; assumption.
Qed.

Lemma payloads_placement (mode : option AddMode) (fresh : NodeId) (o : Orientation)
    (x new : Node) :
  flat_map payloads (placement mode fresh o x new) = payloads x ++ payloads new.
Proof.
  unfold placement.
  destruct (requested_axis mode) as [a |]; [| simpl; rewrite app_nil_r; reflexivity].
  destruct (wants_split mode || negb (bool_decide (a = o))); simpl.
  - unfold wrap. rewrite payloads_container. simpl.
    rewrite !payloads_with_box, !app_nil_r. reflexivity.
  - rewrite app_nil_r. reflexivity.
Qed.

Lemma payloads_place (target : NodeId) (new : Node) (mode : option AddMode)
    (fresh : NodeId) (b : Box) (o : Orientation) (cs : list Node) :
  payloads (place target new mode fresh (Container b o cs))
  = flat_map (fun c => if Nat.eqb (node_id c) target
                       then payloads c ++ payloads new
                       else payloads (place target new mode fresh c)) cs.
Proof.
  simpl. rewrite payloads_container.
  induction cs as [| c cs IH]; simpl; [reflexivity |].
  rewrite flat_map_app, IH. f_equal.
  destruct (Nat.eqb (node_id c) target).
  - apply payloads_placement.
  - simpl. apply app_nil_r.
Qed.

(** Mode-based placement keeps every window and adds at most the new one. *)
Lemma place_keeps (target : NodeId) (new : Node) (mode : option AddMode)
    (fresh : NodeId) (c : Payload) (r : Node) (q : Payload) :
  payloads new = [c] ->
  (q ∈ payloads (place target new mode fresh r) -> q = c \/ q ∈ payloads r) /\
  (q ∈ payloads r -> q ∈ payloads (place target new mode fresh r)).
Proof.
  intros Hnew.
  induction r as [b p t m | b o cs IH] using Node_ind; [split; auto |].
  rewrite payloads_place, payloads_container, !elem_of_flat_map.
  rewrite Forall_forall in IH. split.
  - intros (x & Hx & Hq). destruct (Nat.eqb (node_id x) target).
    + rewrite Hnew in Hq. apply elem_of_app in Hq as [Hq | Hq].
      * right. exists x. split; assumption.
      * left. apply list_elem_of_singleton in Hq. exact Hq.
    + destruct (proj1 (IH x Hx) Hq) as [-> | Hq']; [left; reflexivity |].
      right. exists x. split; assumption.
  - intros (x & Hx & Hq). exists x. split; [exact Hx |].
    destruct (Nat.eqb (node_id x) target).
    + apply elem_of_app. left. exact Hq.
    + apply (IH x Hx). exact Hq.
Qed.

(** Mode-based placement on a leaf of the tree adds the new window. *)
Lemma place_adds (new : Node) (mode : option AddMode) (fresh : NodeId)
    (c : Payload) (r L : Node) :
  payloads new = [c] -> payload r = None -> L ∈ all_leafs r ->
  c ∈ payloads (place (node_id L) new mode fresh r).
Proof.
  intros Hnew.
  induction r as [b p t m | b o cs IH] using Node_ind; intros Hr HL;
    [discriminate Hr |].
  rewrite payloads_place. simpl in HL.
  apply elem_of_flat_map in HL as (x & Hx & HLx).
  apply elem_of_flat_map. exists x. split; [exact Hx |].
  destruct (Nat.eqb (node_id x) (node_id L)) eqn:E.
  - rewrite Hnew. apply elem_of_app. right. left.
  - rewrite Forall_forall in IH. apply (IH x Hx); [| exact HLx].
    destruct x as [b' p' t' m' | b' o' cs']; [| reflexivity].
    simpl in HLx. apply list_elem_of_singleton in HLx. subst L.
    rewrite Nat.eqb_refl in E. discriminate E.
Qed.

Lemma payloads_insert_child (i : nat) (new : Node) (b : Box) (o : Orientation)
    (cs : list Node) (q : Payload) :
  q ∈ payloads (insert_child i new (Container b o cs))
  <-> q ∈ payloads new \/ q ∈ payloads (Container b o cs).
Proof.
  simpl. rewrite !payloads_container, flat_map_app. simpl.
  rewrite <- (take_drop i cs) at 3. rewrite flat_map_app, !elem_of_app. tauto.
Qed.

Lemma update_node_container (id : NodeId) (f : Node -> Node) (b : Box)
    (o : Orientation) (cs : list Node) :
  update_node id f (Container b o cs)
  = if Nat.eqb (box_id b) id then f (Container b o cs)
    else Container b o (map (update_node id f) cs).
Proof. reflexivity. Qed.

(** A restore keeps every window and adds at most the restored one. *)
Lemma restore_keeps (pid : NodeId) (i : nat) (new : Node) (c : Payload)
    (r : Node) (q : Payload) :
  payloads new = [c] ->
  (q ∈ payloads (update_node pid (insert_child i new) r) -> q = c \/ q ∈ payloads r) /\
  (q ∈ payloads r -> q ∈ payloads (update_node pid (insert_child i new) r)).
Proof.
  intros Hnew.
  induction r as [b p t m | b o cs IH] using Node_ind.
  - unfold update_node. destruct (Nat.eqb _ _); simpl; split; auto.
  - rewrite update_node_container. destruct (Nat.eqb (box_id b) pid).
    + rewrite payloads_insert_child, Hnew, list_elem_of_singleton. tauto.
    + rewrite !payloads_container, !elem_of_flat_map.
      rewrite Forall_forall in IH. split.
      * intros (x & Hx & Hq). apply list_elem_of_fmap in Hx as (y & -> & Hy).
        destruct (proj1 (IH y Hy) Hq) as [-> | Hq']; [left; reflexivity |].
        right. exists y. split; assumption.
      * intros (y & Hy & Hq).
        exists (update_node pid (insert_child i new) y). split.
        -- apply list_elem_of_fmap_2. exact Hy.
        -- apply (IH y Hy). exact Hq.
Qed.

(** A restore into a container of the tree adds the restored window. *)
Lemma restore_adds (pid : NodeId) (i : nat) (new : Node) (c : Payload)
    (r : Node) (b0 : Box) (o0 : Orientation) (cs0 : list Node) :
  payloads new = [c] ->
  find_node pid r = Some (Container b0 o0 cs0) ->
  c ∈ payloads (update_node pid (insert_child i new) r).
Proof.
  intros Hnew. revert b0 o0 cs0.
  induction r as [b p t m | b o cs IH] using Node_ind; intros b0 o0 cs0 Hfind.
  - unfold find_node in Hfind. destruct (Nat.eqb _ _); discriminate Hfind.
  - rewrite update_node_container. simpl in Hfind.
    change (node_id (Container b o cs)) with (box_id b) in Hfind.
    destruct (Nat.eqb (box_id b) pid).
    + apply payloads_insert_child. left. rewrite Hnew. left.
    + rewrite payloads_container.
      induction IH as [| x cs Hx _ IHcs]; [discriminate Hfind |].
      simpl. apply elem_of_app.
      destruct (find_node pid x) as [y |] eqn:Ex.
      * left. injection Hfind as ->. eapply Hx. reflexivity.
      * right. apply IHcs. exact Hfind.
Qed.

(** X12: on an instance whose root is a container, [add_client] makes the
    client a window of the tree, whichever path places it, and keeps every
    other window: afterwards the windows are the former ones and the client.
    In particular a following [focus] or [remove] of the client does not trip
    the lookup assertion. *)
Theorem add_client_adds_the_window (w : World) (c : Payload) :
  payload (root (self w)) = None ->
  let w' := (add_client c w).2 in
  (forall q, present q (root (self w')) <-> q = c \/ present q (root (self w))) /\
  returns (focus c w') = true /\
  returns (remove c w') = true.
Proof.
  intros Hroot w'.
  assert (Hnew : payloads (new_leaf w c) = [c]) by reflexivity.
  assert (Hadd : forall q, present q (root (self w'))
                           <-> q = c \/ present q (root (self w))).
  { intros q. rewrite !present_payloads. subst w'. rewrite add_client_run.
    cbv zeta.
    destruct (node_restore (new_leaf w c) (root (self w)) (restorables (self w)))
      as [t |] eqn:Hrestore; simpl.
    - unfold node_restore in Hrestore. simpl in Hrestore.
      destruct (restorables (self w) !! c) as [m |]; [| discriminate Hrestore].
      destruct (find_node (anchor_parent m) (root (self w)))
        as [[b0 p0 t0 m0 | b0 o0 cs0] |] eqn:Hfind; try discriminate Hrestore.
      destruct (decide (anchor_index m <= length cs0)%nat); [| discriminate Hrestore].
      injection Hrestore as <-. simpl.
      set (new' := with_box (set_weight (anchor_weight m)) (new_leaf w c)).
      assert (Hnew' : payloads new' = [c]) by reflexivity.
      split.
      + apply (restore_keeps _ _ new' c _ q Hnew').
      + intros [-> | Hq].
        * exact (restore_adds _ _ new' c _ b0 o0 cs0 Hnew' Hfind).
        * apply (restore_keeps _ _ new' c _ q Hnew'). exact Hq.
    - unfold node_add_node.
      destruct (same_node (add_target w) (root (self w))) eqn:Hsame.
      + destruct (root (self w)) as [b p t m | b o cs]; [discriminate Hroot |].
        rewrite !payloads_container, flat_map_app. simpl.
        rewrite elem_of_app, list_elem_of_singleton. tauto.
      + split.
        * apply (place_keeps _ _ _ _ c _ q Hnew).
        * intros [-> | Hq]; [| apply (place_keeps _ _ _ _ c _ q Hnew); exact Hq].
          unfold add_target in *.
          destruct (find_payload (root (self w)) (focused (self w)))
            as [n |] eqn:Hn.
          -- apply (place_adds _ _ _ c _ n Hnew Hroot).
             apply (find_payload_Some _ _ _ Hn).
          -- rewrite same_node_refl in Hsame. discriminate Hsame. }
  split; [exact Hadd |].
  assert (Hc : present c (root (self w'))) by (apply Hadd; left; reflexivity).
  apply find_payload_present in Hc as [n Hn].
  split.
  - rewrite (focus_run w' c n Hn). reflexivity.
  - rewrite (remove_run w' c n Hn). reflexivity.
Qed.

Lemma add_client_adds_the_window_witness :
  (forall q,
     present q (root (self (add_client 5
                              (world_of three_leaf_root (Some 8%nat) (Some VERTICAL))).2))
     <-> q = 5%nat \/ present q three_leaf_root) /\
  returns (focus 5 (add_client 5
                      (world_of three_leaf_root (Some 8%nat) (Some VERTICAL))).2)
    = true.
Proof.
  destruct (add_client_adds_the_window
              (world_of three_leaf_root (Some 8%nat) (Some VERTICAL)) 5)
    as (Hadd & Hfocus & _).
  - reflexivity.
  - split; [exact Hadd | exact Hfocus].
Defined.

(** ** Swapping two windows *)

Lemma leaf_shape_take_contents (from : Node) : leaf_shape (take_contents from).
Proof.
  split; [reflexivity |]. intros b p t m.
  destruct from as [b' p' t' m' | b' o' cs']; simpl; eauto 10.
Qed.

Lemma fmap_NoDup_eq {A B} (f : A -> B) (l : list A) (x y : A) :
  NoDup (f <$> l) -> x ∈ l -> y ∈ l -> f x = f y -> x = y.
Proof.
  intros Hnd [i Hi]%list_elem_of_lookup [j Hj]%list_elem_of_lookup Heq.
  assert (i = j) as ->.
  { apply (NoDup_lookup _ i j (f x) Hnd);
      rewrite list_lookup_fmap; [rewrite Hi | rewrite Hj, Heq]; reflexivity. }
  congruence.
Qed.

Lemma omap_payload_fmap (g : Node -> Node) (sw : Payload -> Payload)
    (l : list Node) :
  Forall (fun n => payload (g n) = sw <$> payload n) l ->
  omap payload (g <$> l) = sw <$> omap payload l.
Proof.
  induction 1 as [| n l Hn _ IH]; [reflexivity |].
  rewrite fmap_cons. simpl. rewrite Hn.
  destruct (payload n); simpl; [f_equal |]; exact IH.
Qed.

Lemma swap_run (w : World) (a b : Payload) (La Lb : Node) :
  find_payload (root (self w)) (Some a) = Some La ->
  find_payload (root (self w)) (Some b) = Some Lb ->
  swap a b w =
  (Return tt,
   mkWorld (set_root (node_swap_with La Lb (root (self w))) (self w))
           (next_id w) (clock w) (log w)).
Proof.
  intros Ha Hb. unfold swap.
  rewrite bind_run, definitely_find_payload_run, Ha.
  rewrite bind_run, definitely_find_payload_run, Hb. reflexivity.
Qed.

(** X13: on a tree with distinct node objects and unique payloads, [swap]
    of two windows that are present returns and exchanges the two windows in
    the leaf order: every other window stays at its position, the node
    objects stay where they are, and [focused] is not written. *)
Theorem swap_exchanges_windows (w : World) (a b : Payload) :
  distinct_nodes (root (self w)) ->
  unique_payloads (root (self w)) ->
  present a (root (self w)) ->
  present b (root (self w)) ->
  let w' := (swap a b w).2 in
  returns (swap a b w) = true /\
  payloads (root (self w')) = swapped a b <$> payloads (root (self w)) /\
  node_ids (root (self w')) = node_ids (root (self w)) /\
  focused (self w') = focused (self w).
Proof.
  intros Hd Hu [La Ha]%find_payload_present [Lb Hb]%find_payload_present w'.
  subst w'. rewrite (swap_run w a b La Lb Ha Hb). simpl.
  set (r := root (self w)) in *.
  destruct (find_payload_Some _ _ _ Ha) as [HLa HpLa].
  destruct (find_payload_Some _ _ _ Hb) as [HLb HpLb].
  unfold node_swap_with.
  set (r1 := update_node (node_id La) (take_contents Lb) r).
  assert (Hids1 : node_ids r1 = node_ids r)
    by (apply node_ids_update, leaf_shape_take_contents).
  assert (Hd1 : distinct_nodes r1) by (unfold distinct_nodes; rewrite Hids1; exact Hd).
  split; [reflexivity |].
  split; [| split; [| reflexivity]].
  2: { rewrite node_ids_update by apply leaf_shape_take_contents. exact Hids1. }
  unfold payloads.
  rewrite (all_leafs_update _ _ r1 (leaf_shape_take_contents La) Hd1).
  unfold r1. rewrite (all_leafs_update _ _ r (leaf_shape_take_contents Lb) Hd).
  rewrite <- list_fmap_compose.
  apply omap_payload_fmap, Forall_forall. intros n Hn. simpl.
  destruct La as [ba pa ta ma | ? ? ?]; [| discriminate HpLa].
  destruct Lb as [bb pb tb mb | ? ? ?]; [| discriminate HpLb].
  injection HpLa as ->. injection HpLb as ->.
  destruct (all_leafs_payload _ _ Hn) as [q Hq].
  assert (Hqa : q = a -> n = Leaf ba a ta ma).
  { intros ->. apply (fmap_NoDup_eq payload (all_leafs r)); assumption. }
  assert (Hqb : q = b -> n = Leaf bb b tb mb).
  { intros ->. apply (fmap_NoDup_eq payload (all_leafs r)); assumption. }
  unfold swapped. rewrite Hq. simpl.
  destruct (Nat.eqb (node_id n) (node_id (Leaf ba a ta ma))) eqn:E1.
  - assert (n = Leaf ba a ta ma) as ->
      by (apply (same_node_eq (all_leafs r)); auto using distinct_leaf_ids).
    injection Hq as <-. simpl.
    change (node_id (Leaf _ b ta ma)) with (box_id ba).
    change (node_id (Leaf bb b tb mb)) with (box_id bb).
    rewrite decide_True by reflexivity.
    destruct (Nat.eqb (box_id ba) (box_id bb)) eqn:E2; simpl; [| reflexivity].
    assert (Leaf ba a ta ma = Leaf bb b tb mb) as Heq
      by (apply (same_node_eq (all_leafs r)); auto using distinct_leaf_ids).
    injection Heq as _ -> _ _. reflexivity.
  - destruct (Nat.eqb (node_id n) (node_id (Leaf bb b tb mb))) eqn:E2.
    + assert (n = Leaf bb b tb mb) as ->
        by (apply (same_node_eq (all_leafs r)); auto using distinct_leaf_ids).
      injection Hq as <-. simpl.
      destruct (decide (b = a)) as [Hba | _].
      * specialize (Hqa Hba). rewrite <- Hqa in E1.
        rewrite Nat.eqb_refl in E1. discriminate E1.
      * rewrite decide_True by reflexivity. reflexivity.
    + rewrite Hq. simpl.
      destruct (decide (q = a)) as [Hqa' | _].
      * specialize (Hqa Hqa'). rewrite <- Hqa in E1.
        rewrite Nat.eqb_refl in E1. discriminate E1.
      * destruct (decide (q = b)) as [Hqb' | _]; [| reflexivity].
        specialize (Hqb Hqb'). rewrite <- Hqb in E2.
        rewrite Nat.eqb_refl in E2. discriminate E2.
Qed.

Lemma swap_exchanges_windows_witness :
  payloads (root (self (swap 7 9 (world_of three_leaf_root (Some 8%nat) None)).2))
    = [9%nat; 8%nat; 7%nat] /\
  focused (self (swap 7 9 (world_of three_leaf_root (Some 8%nat) None)).2)
    = Some 8%nat.
Proof.
  destruct (swap_exchanges_windows (world_of three_leaf_root (Some 8%nat) None) 7 9)
    as (_ & Hpay & _ & Hfocus).
  - apply (bool_decide_unpack _). vm_compute. exact I.
  - apply (bool_decide_unpack _). vm_compute. exact I.
  - apply (bool_decide_unpack _). vm_compute. exact I.
  - apply (bool_decide_unpack _). vm_compute. exact I.
  - split; [exact Hpay | exact Hfocus].
Defined.
